(** * Koch-curve generator (app.py): shallow embedding and verification

    The geometry of [app.py] works on Python floats.  It is embedded
    twice.  In [Koch], coordinates, lengths and angles are real numbers
    ([R]): every statement about coordinates made of it is a statement of
    exact real arithmetic, that is of the curve the code approximates.  In
    [Binary64] they are IEEE 754 binary64 numbers, with [math.cos] and
    [math.sin] as parameters: what is proved of it holds of the computed
    points bit for bit.  The Python call stack is an explicit recursion
    budget: [koch_curve] takes the number of frames still available to it
    and yields [Raised RecursionError] when the budget is used up, as the
    interpreter does. *)

From Stdlib Require Import Floats.
From Stdlib Require Import ZArith List String Ascii Bool Lia.
From Stdlib Require Import Reals Lra DecimalString.
Import ListNotations.

(** ** Python run-time notions used by the source *)

Module Py.

(** Exceptions that the embedded code can meet. *)
Inductive exn : Type :=
| RecursionError
| ValueError
| TypeError
| OverflowError.

(** The outcome of a call: a returned value or a raised exception. *)
Inductive outcome (A : Type) : Type :=
| Returned (a : A)
| Raised (e : exn).

Arguments Returned {A} a.
Arguments Raised {A} e.

(** Sequencing of calls: an exception raised by the first call is not
    caught, it is the outcome of the whole. *)
Definition bind {A B : Type} (m : outcome A) (k : A -> outcome B) : outcome B :=
  match m with
  | Returned a => k a
  | Raised e => Raised e
  end.

(** The slice [l[:-1]]: all elements but the last; empty on the empty list. *)
Definition slice_drop_last {A : Type} (l : list A) : list A := removelast l.

(** [l[0]] and [l[-1]], where defined. *)
Definition first {A : Type} (l : list A) : option A := hd_error l.

Fixpoint last {A : Type} (l : list A) : option A :=
  match l with
  | [] => None
  | [x] => Some x
  | _ :: l' => last l'
  end.

End Py.

Notation "x <- m ;; k" := (Py.bind m (fun x => k))
  (at level 61, m at next level, right associativity).

(** ** The fractal logic *)

Module Koch.
Import Py.
Local Open Scope R_scope.

Definition point : Type := (R * R)%type.
Definition polyline : Type := list point.

(** [math.radians] *)
Definition radians (deg : R) : R := deg * (PI / 180).

(** [koch_curve(order, length, start, angle_deg)], with [depth] the number
    of stack frames the interpreter still allows. *)
Fixpoint koch_curve (depth : nat) (order : Z) (length : R) (start : point)
         (angle_deg : R) : outcome polyline :=
  match depth with
  | O => Raised RecursionError
  | S depth' =>
      if (order =? 0)%Z then
        let rad := radians angle_deg in
        let end_ := (fst start + length * cos rad,
                     snd start + length * sin rad) in
        Returned [start; end_]
      else
        let seg := length / 3 in
        let a := start in
        let rad0 := radians angle_deg in
        let b := (fst a + seg * cos rad0, snd a + seg * sin rad0) in
        let c := (fst b + seg * cos (radians (angle_deg + 60)),
                  snd b + seg * sin (radians (angle_deg + 60))) in
        let d := (fst c + seg * cos (radians (angle_deg - 60)),
                  snd c + seg * sin (radians (angle_deg - 60))) in
        l1 <- koch_curve depth' (order - 1) seg a angle_deg ;;
        l2 <- koch_curve depth' (order - 1) seg b (angle_deg + 60) ;;
        l3 <- koch_curve depth' (order - 1) seg c (angle_deg - 60) ;;
        l4 <- koch_curve depth' (order - 1) seg d angle_deg ;;
        Returned (slice_drop_last l1 ++ slice_drop_last l2
                    ++ slice_drop_last l3 ++ l4)
  end.

(** [koch_two_sides(order, length)]; [depth] is the number of frames left
    for [koch_curve] when it is called here. *)
Definition koch_two_sides (depth : nat) (order : Z) (length : R)
  : outcome (polyline * polyline) :=
  let left_start := (- length / 2, 0) in
  side1 <- koch_curve depth order length left_start 0 ;;
  let mid := (0, 0) in
  side2 <- koch_curve depth order length mid 60 ;;
  Returned (side1, side2).

(** [koch_snowflake(order, length)]; [depth] is the number of frames left
    for [koch_curve] when it is called here. *)
Definition koch_snowflake (depth : nat) (order : Z) (length : R)
  : outcome (list polyline) :=
  let h := (sqrt 3 / 2) * length in
  let p1 := (- length / 2, 0) in
  let p2 := (length / 2, 0) in
  let p3 := (0, h) in
  side1 <- koch_curve depth order length p1 0 ;;
  side2 <- koch_curve depth order length p2 120 ;;
  side3 <- koch_curve depth order length p3 (-120) ;;
  Returned [side1; side2; side3].

(** The point reached from [p] by moving [dist] at [deg] degrees. *)
Definition advance (p : point) (dist deg : R) : point :=
  (fst p + dist * cos (radians deg), snd p + dist * sin (radians deg)).

(** The same recursion on a natural order: the total function that
    [koch_curve] computes when the order is non-negative and the stack
    suffices. *)
Fixpoint koch_points (n : nat) (length : R) (start : point) (angle_deg : R)
  : polyline :=
  match n with
  | O => [start; advance start length angle_deg]
  | S n' =>
      let seg := length / 3 in
      let b := advance start seg angle_deg in
      let c := advance b seg (angle_deg + 60) in
      let d := advance c seg (angle_deg - 60) in
      slice_drop_last (koch_points n' seg start angle_deg)
        ++ slice_drop_last (koch_points n' seg b (angle_deg + 60))
        ++ slice_drop_last (koch_points n' seg c (angle_deg - 60))
        ++ koch_points n' seg d angle_deg
  end.

(** The image of [p] under the scaling of factor [k] centred at [c]:
    [c + k * (p - c)], componentwise. *)
Definition scale_about (c : point) (k : R) (p : point) : point :=
  (fst c + k * (fst p - fst c), snd c + k * (snd p - snd c)).

(** The precondition the interface puts on the core's callers. *)
Definition valid_input (order : Z) (length : R) : Prop :=
  (0 <= order)%Z /\ 0 < length.

End Koch.

(** ** Request-parameter helpers *)

Module Params.
Import Py.

(** A Python float as far as comparisons see it: not-a-number, the two
    infinities, or a finite value (embedded as a real). *)
Inductive pyfloat : Type :=
| FNaN
| FPosInf
| FNegInf
| FFin (r : R).

(** The values that reach the helpers: [str] (a query argument), [int]
    and [float] (the defaults handed to [args.get]). *)
Inductive pyval : Type :=
| VStr (s : string)
| VInt (n : Z)
| VFloat (x : pyfloat).

(** [x < y] on floats; every comparison with not-a-number is false. *)
Definition float_lt (x y : pyfloat) : bool :=
  match x, y with
  | FNaN, _ | _, FNaN => false
  | FFin a, FFin b => if Rlt_dec a b then true else false
  | FNegInf, FNegInf => false
  | FNegInf, _ => true
  | _, FPosInf => match x with FPosInf => false | _ => true end
  | _, _ => false
  end.

(** The builtins [min(a, b)] and [max(a, b)]: the first argument is kept
    unless the second is strictly smaller (resp. strictly greater). *)
Definition min_int (a b : Z) : Z := if (b <? a)%Z then b else a.
Definition max_int (a b : Z) : Z := if (a <? b)%Z then b else a.
Definition min_float (a b : pyfloat) : pyfloat := if float_lt b a then b else a.
Definition max_float (a b : pyfloat) : pyfloat := if float_lt a b then b else a.

(** Truncation toward zero, as [int] does on a finite float. *)
Definition trunc (r : R) : Z :=
  if Rle_dec 0 r then Int_part r else (- Int_part (- r))%Z.

(** [v == lit] for a [str] literal [lit]: a non-[str] never equals it. *)
Definition eq_str (v : pyval) (lit : string) : bool :=
  match v with
  | VStr s => String.eqb s lit
  | _ => false
  end.

(** [request.args]: the query string's (key, value) pairs in order. *)
Definition args_t : Type := list (string * string).

(** [args.get(key, default)]: the first value stored under [key]. *)
Fixpoint get (args : args_t) (key : string) (default : pyval) : pyval :=
  match args with
  | [] => default
  | (k, v) :: rest => if String.eqb k key then VStr v else get rest key default
  end.

(** The first value stored under [key], if there is one. *)
Definition lookup_first (args : args_t) (key : string) : option string :=
  option_map snd (find (fun kv => String.eqb (fst kv) key) args).

(** Clamping to [0.1, 10.0] as a function on the extended reals; a
    not-a-number has no order and is sent to the upper bound. *)
Definition clamp_float (x : pyfloat) : R :=
  match x with
  | FFin r => Rmax (1 / 10) (Rmin 10 r)
  | FPosInf | FNaN => 10
  | FNegInf => 1 / 10
  end.

(** The dictionary built by [_get_params]. *)
Record params : Type := mkParams {
  fig : pyval;
  order : Z;
  lw : pyfloat;
  c1 : pyval;
  c2 : pyval
}.

Section Builtins.

(** How the builtins [int] and [float] read a [str]: [None] when they
    raise [ValueError]. *)
Variable int_of_str : string -> option Z.
Variable float_of_str : string -> option pyfloat.

(** [int(v)] *)
Definition int (v : pyval) : outcome Z :=
  match v with
  | VInt n => Returned n
  | VFloat FNaN => Raised ValueError
  | VFloat FPosInf | VFloat FNegInf => Raised OverflowError
  | VFloat (FFin r) => Returned (trunc r)
  | VStr s =>
      match int_of_str s with
      | Some n => Returned n
      | None => Raised ValueError
      end
  end.

(** [float(v)]; an [int] that rounds to [2^1024] or more in magnitude has
    no float and raises [OverflowError]. *)
Definition float (v : pyval) : outcome pyfloat :=
  match v with
  | VFloat x => Returned x
  | VInt n =>
      if (Z.abs n <? 2 ^ 1024 - 2 ^ 970)%Z then Returned (FFin (IZR n))
      else Raised OverflowError
  | VStr s =>
      match float_of_str s with
      | Some x => Returned x
      | None => Raised ValueError
      end
  end.

(** [_clamp_int(v, vmin, vmax, default)] *)
Definition _clamp_int (v : pyval) (vmin vmax default : Z) : Z :=
  match int v with
  | Returned x => max_int vmin (min_int vmax x)
  | Raised _ => default
  end.

(** [_float_pos(v, default)] *)
Definition _float_pos (v : pyval) (default : pyfloat) : pyfloat :=
  match float v with
  | Returned x => max_float (FFin (1 / 10)) (min_float (FFin 10) x)
  | Raised _ => default
  end.

(** [_hex_color(v, default)] *)
Definition _hex_color (v default : pyval) : pyval :=
  match v with
  | VStr s =>
      if ((Nat.eqb (String.length s) 4 || Nat.eqb (String.length s) 7)
          && String.prefix "#" s)%bool
      then v else default
  | _ => default
  end.

(** [_get_params(args)] *)
Definition _get_params (args : args_t) : params :=
  let fig := get args "fig" (VStr "curve") in
  let order := _clamp_int (get args "order" (VInt 4)) 0 7 4 in
  let lw := _float_pos (get args "lw" (VFloat (FFin (18 / 10)))) (FFin 1) in
  let c1 := _hex_color (get args "c1" (VStr "#67e8f9")) (VStr "#67e8f9") in
  let c2 := _hex_color (get args "c2" (VStr "#f0abfc")) (VStr "#f0abfc") in
  mkParams fig order lw c1 c2.

End Builtins.

(** The format the interface documents for [c1] and [c2]: [#RGB] or
    [#RRGGBB], a [#] followed by exactly 3 or 6 hexadecimal digits. *)
Definition is_hex_digit (ch : ascii) : bool :=
  let n := nat_of_ascii ch in
  ((48 <=? n) && (n <=? 57) || (65 <=? n) && (n <=? 70)
   || (97 <=? n) && (n <=? 102))%nat.

Fixpoint all_hex (s : string) : bool :=
  match s with
  | EmptyString => true
  | String ch s' => is_hex_digit ch && all_hex s'
  end.

Definition hex_color_format (s : string) : bool :=
  match s with
  | String "#" body =>
      (Nat.eqb (String.length body) 3 || Nat.eqb (String.length body) 6)
      && all_hex body
  | _ => false
  end.

End Params.

(** ** The image route, up to rendering *)

Module Plot.
Import Py Koch Params.
Local Open Scope R_scope.

(** What [plot] hands to the renderer, by branch. *)
Inductive shape : Type :=
| Curve (pts : polyline)
| TwoSides (side1 side2 : polyline)
| Snowflake (sides : list polyline).

Section Builtins.
Variable int_of_str : string -> option Z.
Variable float_of_str : string -> option pyfloat.

(** The branch of [plot] on [params["fig"]] and the core call it makes;
    [depth] is the number of frames left for [koch_curve] when the core is
    called, the frames of [plot], of the assembler and of the renderer not
    counted. *)
Definition plot (depth : nat) (args : args_t) : outcome shape :=
  let params := _get_params int_of_str float_of_str args in
  let order := Params.order params in
  if eq_str (fig params) "curve" then
    pts <- koch_curve depth order 1 (-0.5, 0) 0 ;;
    Returned (Curve pts)
  else if eq_str (fig params) "two" then
    sides <- koch_two_sides depth order 1 ;;
    Returned (TwoSides (fst sides) (snd sides))
  else
    sides <- koch_snowflake depth order 1 ;;
    Returned (Snowflake sides).

End Builtins.

End Plot.

(** ** Plane geometry used to state what the curves look like *)

Module Geometry.
Import Py Koch.
Local Open Scope R_scope.

(** The square of the distance between two points. *)
Definition dist2 (p q : point) : R :=
  (fst q - fst p) * (fst q - fst p) + (snd q - snd p) * (snd q - snd p).

(** [p] moved by the vector [t]. *)
Definition translate (t p : point) : point :=
  (fst p + fst t, snd p + snd t).

(** [p] turned by [deg] degrees, counter-clockwise, around [c]. *)
Definition rotate_about (c : point) (deg : R) (p : point) : point :=
  (fst c + (fst p - fst c) * cos (radians deg)
         - (snd p - snd c) * sin (radians deg),
   snd c + (fst p - fst c) * sin (radians deg)
         + (snd p - snd c) * cos (radians deg)).

(** All consecutive points of [l] are at squared distance [d]. *)
Fixpoint equal_steps (d : R) (l : polyline) : Prop :=
  match l with
  | p :: ((q :: _) as l') => dist2 p q = d /\ equal_steps d l'
  | _ => True
  end.

(** [p] lies in the isosceles triangle built on the segment that starts at
    [s], has length [len] and direction [deg], with its apex on the left of
    the segment at height [len * sqrt 3 / 6]: in the frame of the segment,
    [p] is at abscissa [x] and height [y] with [0 <= y], [sqrt 3 * y <= x]
    and [sqrt 3 * y <= len - x]. *)
Definition in_triangle (s : point) (len deg : R) (p : point) : Prop :=
  exists x y,
    p = (fst s + x * cos (radians deg) - y * sin (radians deg),
         snd s + x * sin (radians deg) + y * cos (radians deg))
    /\ 0 <= y /\ sqrt 3 * y <= x /\ sqrt 3 * y <= len - x.

End Geometry.

(** ** What [plot] fixes besides the points *)

Module Figure.
Import Py Koch Params Plot.
Local Open Scope R_scope.
Local Open Scope string_scope.

(** The polylines of a shape, one per call of [ax.plot]. *)
Definition polylines (sh : shape) : list polyline :=
  match sh with
  | Curve pts => [pts]
  | TwoSides side1 side2 => [side1; side2]
  | Snowflake sides => sides
  end.

(** The limits [(xmin, xmax), (ymin, ymax)] that [plot] sets with
    [ax.set_xlim] and [ax.set_ylim], by branch. *)
Definition axes_limits (fig : pyval) : (R * R) * (R * R) :=
  if eq_str fig "curve" then ((-0.55, 0.55), (-0.15, 0.35))
  else if eq_str fig "two" then ((-0.65, 0.65), (-0.15, 0.7))
  else ((-0.7, 0.7), (-0.15, 0.95)).

(** [p] is inside the limits. *)
Definition within (lim : (R * R) * (R * R)) (p : point) : Prop :=
  fst (fst lim) <= fst p <= snd (fst lim)
  /\ fst (snd lim) <= snd p <= snd (snd lim).

(** [bool(v)] for [v] the result of [args.get(key)]: [None] and the empty
    string are false. *)
Definition truthy (v : option string) : bool :=
  match v with
  | Some s => negb (String.eqb s "")
  | None => false
  end.

(** An [int] in an f-string: its decimal digits, with a sign when negative. *)
Definition format_int (n : Z) : string := NilEmpty.string_of_int (Z.to_int n).

(** What [plot] passes to [send_file]. *)
Record response : Type := mkResponse {
  mimetype : string;
  as_attachment : bool;
  download_name : string
}.

Section Builtins.
Variable int_of_str : string -> option Z.
Variable float_of_str : string -> option pyfloat.

(** [str.lower] and the text of a float in an f-string. *)
Variable lower : string -> string.
Variable format_float : pyfloat -> string.

(** A value in an f-string. *)
Definition format_val (v : pyval) : string :=
  match v with
  | VStr s => s
  | VInt n => format_int n
  | VFloat x => format_float x
  end.

(** The format, mime type, extension and file name chosen by [plot]. *)
Definition plot_response (args : args_t) : response :=
  let params := _get_params int_of_str float_of_str args in
  let fmt := lower (match lookup_first args "fmt" with
                    | Some s => s
                    | None => "png"
                    end) in
  let download := lookup_first args "download" in
  let order := Params.order params in
  let mime_ext := if String.eqb fmt "svg" then ("image/svg+xml", "svg")
                  else ("image/png", "png") in
  let filename := "koch_" ++ format_val (fig params) ++ "_o"
                    ++ format_int order ++ "." ++ snd mime_ext in
  mkResponse (fst mime_ext) (truthy download) filename.

End Builtins.

End Figure.

(** ** The core on the interpreter's floats *)

Module Binary64.
Import Py.
Local Open Scope float_scope.

(** A Python float is an IEEE 754 binary64 number; [+], [-], [*] and [/]
    round to nearest, ties to even. *)
Definition point : Type := (float * float)%type.
Definition polyline : Type := list point.

(** [math.radians(x)] is [x * (pi / 180.0)], with [pi] the float nearest
    to the number pi. *)
Definition pi : float := 0x1.921fb54442d18p+1.
Definition radians (deg : float) : float := deg * (pi / 180).

Section Libm.

(** [math.cos] and [math.sin]: the C library's functions, which return a
    float or raise (on an infinite argument). *)
Variable cos : float -> outcome float.
Variable sin : float -> outcome float.

(** [koch_curve(order, length, start, angle_deg)] on floats, with [depth]
    the number of stack frames the interpreter still allows. *)
Fixpoint koch_curve (depth : nat) (order : Z) (length : float) (start : point)
         (angle_deg : float) : outcome polyline :=
  match depth with
  | O => Raised RecursionError
  | S depth' =>
      if (order =? 0)%Z then
        let rad := radians angle_deg in
        cr <- cos rad ;;
        sr <- sin rad ;;
        let end_ := (fst start + length * cr, snd start + length * sr) in
        Returned [start; end_]
      else
        let seg := length / 3 in
        let a := start in
        let rad0 := radians angle_deg in
        cb <- cos rad0 ;;
        sb <- sin rad0 ;;
        let b := (fst a + seg * cb, snd a + seg * sb) in
        cc <- cos (radians (angle_deg + 60)) ;;
        sc <- sin (radians (angle_deg + 60)) ;;
        let c := (fst b + seg * cc, snd b + seg * sc) in
        cd <- cos (radians (angle_deg - 60)) ;;
        sd <- sin (radians (angle_deg - 60)) ;;
        let d := (fst c + seg * cd, snd c + seg * sd) in
        ce <- cos rad0 ;;
        se <- sin rad0 ;;
        let e := (fst d + seg * ce, snd d + seg * se) in
        l1 <- koch_curve depth' (order - 1) seg a angle_deg ;;
        l2 <- koch_curve depth' (order - 1) seg b (angle_deg + 60) ;;
        l3 <- koch_curve depth' (order - 1) seg c (angle_deg - 60) ;;
        l4 <- koch_curve depth' (order - 1) seg d angle_deg ;;
        Returned (slice_drop_last l1 ++ slice_drop_last l2
                    ++ slice_drop_last l3 ++ l4)
  end.

End Libm.

(** [start + k * (p - start)], componentwise, on floats. *)
Definition scale_about (c : point) (k : float) (p : point) : point :=
  (fst c + k * (fst p - fst c), snd c + k * (snd p - snd c)).

(** The values that the C library gives for [cos] and [sin] at the
    radians of 0, 60, -60, 120 and -120 degrees; an argument outside this
    table is answered by an exception, so that an outcome [Returned] shows
    that the table sufficed. *)
Definition table_cos (x : float) : outcome float :=
  if abs x =? 0 then Returned 1
  else if abs x =? 0x1.0c152382d7365p+0 then Returned 0x1.0000000000001p-1
  else if abs x =? 0x1.0c152382d7365p+1 then Returned (-0x1.ffffffffffffcp-2)
  else Raised ValueError.

Definition table_sin (x : float) : outcome float :=
  if x =? 0 then Returned 0
  else if x =? 0x1.0c152382d7365p+0 then Returned 0x1.bb67ae8584caap-1
  else if x =? -0x1.0c152382d7365p+0 then Returned (-0x1.bb67ae8584caap-1)
  else if x =? 0x1.0c152382d7365p+1 then Returned 0x1.bb67ae8584cabp-1
  else if x =? -0x1.0c152382d7365p+1 then Returned (-0x1.bb67ae8584cabp-1)
  else Raised ValueError.

End Binary64.

(** ** Facts about slices and end points of lists *)

Section ListFacts.
Context {A : Type}.
Implicit Types l : list A.

Lemma length_slice_drop_last l :
  List.length (Py.slice_drop_last l) = Nat.pred (List.length l).
Proof.
  unfold Py.slice_drop_last.
  induction l as [|x [|y l'] IH]; simpl in *; auto.
Qed.

Lemma last_cons_cons x y l : Py.last (x :: y :: l) = Py.last (y :: l).
Proof. reflexivity. Qed.

Lemma last_app l l' : l' <> [] -> Py.last (l ++ l') = Py.last l'.
Proof.
  intros Hne. induction l as [|x l IH]; [reflexivity|].
  destruct l as [|y l].
  - destruct l' as [|z l']; [contradiction | reflexivity].
  - exact IH.
Qed.

Lemma first_app l l' x : Py.first l = Some x -> Py.first (l ++ l') = Some x.
Proof. destruct l; simpl; [discriminate | auto]. Qed.

Lemma first_slice_drop_last l x :
  (2 <= List.length l)%nat -> Py.first l = Some x ->
  Py.first (Py.slice_drop_last l) = Some x.
Proof.
  destruct l as [|a [|b l]]; simpl; intros Hlen Hx; try lia; exact Hx.
Qed.

Lemma last_some_nonempty l x : Py.last l = Some x -> l <> [].
Proof. destruct l; [discriminate | discriminate]. Qed.

(** A list is its [l[:-1]] slice followed by its last element. *)
Lemma slice_drop_last_last l x :
  Py.last l = Some x -> l = Py.slice_drop_last l ++ [x].
Proof.
  unfold Py.slice_drop_last.
  induction l as [|a [|b l] IH]; intros H.
  - discriminate.
  - injection H as ->. reflexivity.
  - rewrite last_cons_cons in H. specialize (IH H).
    change (removelast (a :: b :: l)) with (a :: removelast (b :: l)).
    simpl app. f_equal. exact IH.
Qed.

End ListFacts.

Lemma slice_drop_last_map {A B : Type} (f : A -> B) (l : list A) :
  Py.slice_drop_last (map f l) = map f (Py.slice_drop_last l).
Proof.
  unfold Py.slice_drop_last.
  induction l as [|x [|y l] IH]; try reflexivity.
  change (f x :: removelast (map f (y :: l)) = f x :: map f (removelast (y :: l))).
  f_equal. exact IH.
Qed.

(** ** The curve on a natural order *)

Section KochPoints.
Import Py Koch.
Local Open Scope R_scope.

Lemma radians_plus_60 a : radians (a + 60) = radians a + PI / 3.
Proof. unfold radians. field. Qed.

Lemma radians_minus_60 a : radians (a - 60) = radians a - PI / 3.
Proof. unfold radians. field. Qed.

(** The four thirds of the construction end where the whole segment ends. *)
Lemma advance_four_legs (s : point) (seg a : R) :
  advance (advance (advance (advance s seg a) seg (a + 60)) seg (a - 60)) seg a
  = advance s (3 * seg) a.
Proof.
  unfold advance; simpl.
  rewrite radians_plus_60, radians_minus_60.
  rewrite cos_plus, cos_minus, sin_plus, sin_minus, cos_PI3.
  f_equal; field.
Qed.

Lemma koch_points_length n len s a :
  List.length (koch_points n len s a) = (4 ^ n + 1)%nat.
Proof.
  revert len s a. induction n as [|n IH]; intros len s a.
  - reflexivity.
  - cbn [koch_points].
    rewrite !length_app, !length_slice_drop_last, !IH.
    rewrite Nat.pow_succ_r'. lia.
Qed.

Lemma koch_points_first n len s a : first (koch_points n len s a) = Some s.
Proof.
  revert len s a. induction n as [|n IH]; intros len s a.
  - reflexivity.
  - cbn [koch_points]. apply first_app, first_slice_drop_last.
    + rewrite koch_points_length. pose proof (Nat.pow_nonzero 4 n). lia.
    + apply IH.
Qed.

Lemma koch_points_nonempty n len s a : koch_points n len s a <> [].
Proof.
  intros H. pose proof (koch_points_first n len s a) as F.
  rewrite H in F. discriminate.
Qed.

Lemma koch_points_last n len s a :
  last (koch_points n len s a) = Some (advance s len a).
Proof.
  revert len s a. induction n as [|n IH]; intros len s a.
  - reflexivity.
  - cbn [koch_points].
    rewrite !last_app; try apply koch_points_nonempty.
    + rewrite IH, advance_four_legs. do 2 f_equal. field.
    + intros H. apply app_eq_nil in H as [_ H].
      revert H. apply koch_points_nonempty.
    + intros H. apply app_eq_nil in H as [_ H].
      apply app_eq_nil in H as [_ H].
      revert H. apply koch_points_nonempty.
Qed.

Lemma advance_scale_about c k p seg a :
  advance (scale_about c k p) (k * seg) a = scale_about c k (advance p seg a).
Proof. unfold advance, scale_about; simpl. f_equal; ring. Qed.

Lemma scale_about_centre c k : scale_about c k c = c.
Proof. destruct c as [x y]. unfold scale_about; simpl. f_equal; ring. Qed.

(** Scaling the length by [k] scales the whole curve by [k], about any
    centre. *)
Lemma koch_points_scale c k n :
  forall len s a,
    koch_points n (k * len) (scale_about c k s) a
    = map (scale_about c k) (koch_points n len s a).
Proof.
  induction n as [|n IH]; intros len s a.
  - cbn [koch_points map]. rewrite advance_scale_about. reflexivity.
  - cbn [koch_points].
    replace (k * len / 3) with (k * (len / 3)) by field.
    rewrite !map_app, <- !slice_drop_last_map.
    rewrite !advance_scale_about, !IH. reflexivity.
Qed.

Lemma radians_0 : radians 0 = 0.
Proof. unfold radians. ring. Qed.

Lemma radians_120 : radians 120 = 2 * (PI / 3).
Proof. unfold radians. field. Qed.

Lemma radians_minus_120 : radians (-120) = - (2 * (PI / 3)).
Proof. unfold radians. field. Qed.

(** With a non-negative order and enough stack, the source function
    returns the points of [koch_points]. *)
Lemma koch_curve_koch_points n :
  forall depth len s a, (n < depth)%nat ->
    koch_curve depth (Z.of_nat n) len s a = Returned (koch_points n len s a).
Proof.
  induction n as [|n IH]; intros depth len s a Hd;
    (destruct depth as [|depth]; [lia|]).
  - reflexivity.
  - cbn [koch_curve].
    replace (Z.of_nat (S n) =? 0)%Z with false
      by (symmetry; apply Z.eqb_neq; lia).
    replace (Z.of_nat (S n) - 1)%Z with (Z.of_nat n) by lia.
    cbv zeta. rewrite !IH by lia. reflexivity.
Qed.

Lemma koch_curve_returns depth order len s a :
  (0 <= order)%Z -> (Z.to_nat order < depth)%nat ->
  koch_curve depth order len s a
  = Returned (koch_points (Z.to_nat order) len s a).
Proof.
  intros Ho Hd.
  rewrite <- (Z2Nat.id order Ho) at 1.
  apply koch_curve_koch_points, Hd.
Qed.

(** Below zero the base case is never met: every budget is used up. *)
Lemma koch_curve_negative depth :
  forall order len s a, (order < 0)%Z ->
    koch_curve depth order len s a = Raised RecursionError.
Proof.
  induction depth as [|depth IH]; intros order len s a Ho.
  - reflexivity.
  - cbn [koch_curve].
    replace (order =? 0)%Z with false by (symmetry; apply Z.eqb_neq; lia).
    cbv zeta. rewrite IH by lia. reflexivity.
Qed.

(** A budget of [order] frames or fewer does not suffice. *)
Lemma koch_curve_stack_exhausted depth :
  forall order len s a, (Z.of_nat depth <= order)%Z ->
    koch_curve depth order len s a = Raised RecursionError.
Proof.
  induction depth as [|depth IH]; intros order len s a Ho.
  - reflexivity.
  - cbn [koch_curve].
    replace (order =? 0)%Z with false by (symmetry; apply Z.eqb_neq; lia).
    cbv zeta. rewrite IH by lia. reflexivity.
Qed.

End KochPoints.

(** ** Properties of the core *)

Section CoreProperties.
Import Py Koch.
Local Open Scope R_scope.

(** C1. For every order >= 0 (and a stack that allows [order + 1] frames),
    and for every length, start point and angle, [koch_curve] returns a
    polyline of exactly [4^order + 1] points. *)
Theorem koch_curve_point_count depth order len s a :
  (0 <= order)%Z -> (Z.to_nat order < depth)%nat ->
  exists pts, koch_curve depth order len s a = Returned pts
              /\ Z.of_nat (List.length pts) = (4 ^ order + 1)%Z.
Proof.
  intros Ho Hd. eexists. split.
  - apply koch_curve_returns; assumption.
  - rewrite koch_points_length, Nat2Z.inj_add, Nat2Z.inj_pow.
    rewrite Z2Nat.id by assumption. reflexivity.
Qed.

Lemma koch_curve_point_count_witness :
  (0 <= 2)%Z /\ (Z.to_nat 2 < 3)%nat /\
  exists pts, koch_curve 3 2 1 (0, 0) 0 = Returned pts
              /\ Z.of_nat (List.length pts) = (4 ^ 2 + 1)%Z.
Proof.
  split; [lia | split; [simpl; lia |]].
  apply (koch_curve_point_count 3 2 1 (0, 0) 0); [lia | simpl; lia].
Defined.

(** C2. For every order >= 0 and length > 0, the first point of the
    returned polyline is [start] and the last one is [start] advanced by
    [length] at [angle_deg]:
    [(start.x + length*cos(angle_deg*pi/180),
      start.y + length*sin(angle_deg*pi/180))], in exact real arithmetic. *)
Theorem koch_curve_endpoints depth order len s a :
  (0 <= order)%Z -> (Z.to_nat order < depth)%nat -> 0 < len ->
  exists pts, koch_curve depth order len s a = Returned pts
              /\ first pts = Some s
              /\ last pts = Some (fst s + len * cos (a * (PI / 180)),
                                  snd s + len * sin (a * (PI / 180))).
Proof.
  intros Ho Hd _. eexists. split; [|split].
  - apply koch_curve_returns; assumption.
  - apply koch_points_first.
  - apply koch_points_last.
Qed.

Lemma koch_curve_endpoints_witness :
  exists pts, koch_curve 2 1 3 (0, 0) 0 = Returned pts
              /\ first pts = Some (0, 0)
              /\ last pts = Some (fst (0, 0) + 3 * cos (0 * (PI / 180)),
                                  snd (0, 0) + 3 * sin (0 * (PI / 180))).
Proof.
  apply (koch_curve_endpoints 2 1 3 (0, 0) 0); [lia | simpl; lia | lra].
Defined.

(** C3, in exact real arithmetic (on the floats the two seam points need
    not be the same float).  For every
    order n > 0 the returned polyline is the concatenation
    of the four order-(n-1) curves of length [length/3] begun at [a = start],
    [b] = [a] advanced at [angle_deg], [c] = [b] advanced at
    [angle_deg + 60], [d] = [c] advanced at [angle_deg - 60], with angles
    [angle_deg], [angle_deg + 60], [angle_deg - 60], [angle_deg]; the last
    point of each of the first three is dropped, and the dropped point is
    the first point of the curve that follows. *)
Theorem koch_curve_four_legs depth order len s ang :
  (0 < order)%Z -> (Z.to_nat order < depth)%nat ->
  let seg := len / 3 in
  let a := s in
  let b := advance a seg ang in
  let c := advance b seg (ang + 60) in
  let d := advance c seg (ang - 60) in
  exists l1 l2 l3 l4 q1 q2 q3,
    koch_curve depth (order - 1) seg a ang = Returned l1
    /\ koch_curve depth (order - 1) seg b (ang + 60) = Returned l2
    /\ koch_curve depth (order - 1) seg c (ang - 60) = Returned l3
    /\ koch_curve depth (order - 1) seg d ang = Returned l4
    /\ koch_curve depth order len s ang
       = Returned (slice_drop_last l1 ++ slice_drop_last l2
                     ++ slice_drop_last l3 ++ l4)
    /\ l1 = slice_drop_last l1 ++ [q1] /\ first l2 = Some q1
    /\ l2 = slice_drop_last l2 ++ [q2] /\ first l3 = Some q2
    /\ l3 = slice_drop_last l3 ++ [q3] /\ first l4 = Some q3.
Proof.
  intros Ho Hd seg a b c d.
  assert (Hn : Z.to_nat order = S (Z.to_nat (order - 1))) by lia.
  exists (koch_points (Z.to_nat (order - 1)) seg a ang),
         (koch_points (Z.to_nat (order - 1)) seg b (ang + 60)),
         (koch_points (Z.to_nat (order - 1)) seg c (ang - 60)),
         (koch_points (Z.to_nat (order - 1)) seg d ang),
         b, c, d.
  repeat split;
    try (apply koch_curve_returns; lia);
    try apply koch_points_first;
    try (apply slice_drop_last_last, koch_points_last).
  rewrite koch_curve_returns by lia. rewrite Hn. reflexivity.
Qed.

Lemma koch_curve_four_legs_witness :
  exists l1 l2 l3 l4 q1 q2 q3,
    koch_curve 3 (2 - 1) (1 / 3) (0, 0) 0 = Returned l1
    /\ koch_curve 3 (2 - 1) (1 / 3) (advance (0, 0) (1 / 3) 0) (0 + 60)
       = Returned l2
    /\ koch_curve 3 (2 - 1) (1 / 3)
         (advance (advance (0, 0) (1 / 3) 0) (1 / 3) (0 + 60)) (0 - 60)
       = Returned l3
    /\ koch_curve 3 (2 - 1) (1 / 3)
         (advance (advance (advance (0, 0) (1 / 3) 0) (1 / 3) (0 + 60))
            (1 / 3) (0 - 60)) 0
       = Returned l4
    /\ koch_curve 3 2 1 (0, 0) 0
       = Returned (slice_drop_last l1 ++ slice_drop_last l2
                     ++ slice_drop_last l3 ++ l4)
    /\ l1 = slice_drop_last l1 ++ [q1] /\ first l2 = Some q1
    /\ l2 = slice_drop_last l2 ++ [q2] /\ first l3 = Some q2
    /\ l3 = slice_drop_last l3 ++ [q3] /\ first l4 = Some q3.
Proof.
  apply (koch_curve_four_legs 3 2 1 (0, 0) 0); [lia | simpl; lia].
Defined.

End CoreProperties.

Section ShapeProperties.
Import Py Koch.
Local Open Scope R_scope.

(** C4. For every order >= 0 and length > 0 the three polylines of
    [koch_snowflake] close up: the last point of side [i] is the first
    point of side [(i+1) mod 3], for [i = 0, 1, 2], in exact real
    arithmetic. *)
Theorem koch_snowflake_closed depth order len :
  (0 <= order)%Z -> (Z.to_nat order < depth)%nat -> 0 < len ->
  exists sides,
    koch_snowflake depth order len = Returned sides
    /\ List.length sides = 3%nat
    /\ forall i, (i < 3)%nat ->
         exists side next p,
           nth_error sides i = Some side
           /\ nth_error sides ((i + 1) mod 3) = Some next
           /\ last side = Some p /\ first next = Some p.
Proof.
  intros Ho Hd _. unfold koch_snowflake.
  rewrite !koch_curve_returns by assumption. cbn [bind].
  eexists. split; [reflexivity|]. split; [reflexivity|].
  intros i Hi.
  destruct i as [|[|[|i]]]; [| | |lia];
    cbn [Nat.add Nat.modulo Nat.divmod fst snd Nat.sub nth_error];
    do 3 eexists; (split; [reflexivity|]); (split; [reflexivity|]);
    rewrite koch_points_last, koch_points_first; split; try reflexivity;
    f_equal; unfold advance; cbn [fst snd].
  - rewrite radians_0, cos_0, sin_0. f_equal; field.
  - rewrite radians_120, cos_2PI3, sin_2PI3. f_equal; field.
  - rewrite radians_minus_120, cos_neg, sin_neg, cos_2PI3, sin_2PI3.
    f_equal; field.
Qed.

Lemma koch_snowflake_closed_witness :
  exists sides,
    koch_snowflake 2 1 1 = Returned sides
    /\ List.length sides = 3%nat
    /\ forall i, (i < 3)%nat ->
         exists side next p,
           nth_error sides i = Some side
           /\ nth_error sides ((i + 1) mod 3) = Some next
           /\ last side = Some p /\ first next = Some p.
Proof.
  apply (koch_snowflake_closed 2 1 1); [lia | simpl; lia | lra].
Defined.

(** C5, in exact real arithmetic (on the floats the relation need not
    hold exactly).  Linear
    scaling: for every order >= 0 and positive [k], the i-th
    point of [koch_curve(order, k*length, start, angle)] is
    [start + k * (p_i - start)], componentwise, with [p_i] the i-th point
    of [koch_curve(order, length, start, angle)]. *)
Theorem koch_curve_scaling depth order len s a k :
  (0 <= order)%Z -> (Z.to_nat order < depth)%nat -> 0 < k ->
  exists ps qs,
    koch_curve depth order len s a = Returned ps
    /\ koch_curve depth order (k * len) s a = Returned qs
    /\ List.length qs = List.length ps
    /\ forall i, nth_error qs i = option_map (scale_about s k) (nth_error ps i).
Proof.
  intros Ho Hd _.
  exists (koch_points (Z.to_nat order) len s a),
         (map (scale_about s k) (koch_points (Z.to_nat order) len s a)).
  split; [apply koch_curve_returns; assumption|].
  split.
  - rewrite koch_curve_returns by assumption.
    rewrite <- koch_points_scale, scale_about_centre. reflexivity.
  - split; [apply length_map|]. intros i. apply nth_error_map.
Qed.

Lemma koch_curve_scaling_witness :
  exists ps qs,
    koch_curve 3 2 1 (1, 2) 30 = Returned ps
    /\ koch_curve 3 2 (5 * 1) (1, 2) 30 = Returned qs
    /\ List.length qs = List.length ps
    /\ forall i, nth_error qs i = option_map (scale_about (1, 2) 5) (nth_error ps i).
Proof.
  apply (koch_curve_scaling 3 2 1 (1, 2) 30 5); [lia | simpl; lia | lra].
Defined.

(** C6. For every order >= 0, [koch_curve] terminates: its recursion is
    well founded on the order and needs no more than [order + 1] frames;
    what it returns is the total function [koch_points], defined by
    structural recursion on the order. *)
Theorem koch_curve_terminates depth order len s a :
  (0 <= order)%Z -> (Z.to_nat order < depth)%nat ->
  koch_curve depth order len s a
  = Returned (koch_points (Z.to_nat order) len s a).
Proof. intros Ho Hd. apply koch_curve_returns; assumption. Qed.

Lemma koch_curve_terminates_witness :
  koch_curve 8 7 1 (0, 0) 0 = Returned (koch_points (Z.to_nat 7) 1 (0, 0) 0).
Proof. apply (koch_curve_terminates 8 7 1 (0, 0) 0); [lia | simpl; lia]. Defined.

End ShapeProperties.

Section ErrorBehaviour.
Import Py Koch.
Local Open Scope R_scope.

(** C7, as the code has it.  An input outside the precondition is not
    rejected by a check.  With a negative order the recursion never meets
    its base case: whatever the stack budget, the outcome is
    [RecursionError] and no polyline, partial or whole, is returned.  With
    a non-positive length (and order >= 0) nothing is raised: the call
    returns the whole polyline that the recursion defines. *)
Theorem koch_curve_invalid_input depth order len s a :
  ~ valid_input order len -> (Z.to_nat order < depth)%nat ->
  ((order < 0)%Z /\ koch_curve depth order len s a = Raised RecursionError)
  \/ ((0 <= order)%Z /\ len <= 0
      /\ koch_curve depth order len s a
         = Returned (koch_points (Z.to_nat order) len s a)).
Proof.
  intros Hinv Hd. destruct (Z_lt_le_dec order 0) as [Hneg|Hpos].
  - left. split; [assumption|]. apply koch_curve_negative; assumption.
  - right. split; [assumption|]. split.
    + apply Rnot_lt_le. intros Hlen. apply Hinv. split; assumption.
    + apply koch_curve_returns; assumption.
Qed.

Lemma koch_curve_invalid_input_witness :
  ((-3 < 0)%Z /\ koch_curve 5 (-3) 1 (0, 0) 0 = Raised RecursionError)
  \/ ((0 <= -3)%Z /\ 1 <= 0
      /\ koch_curve 5 (-3) 1 (0, 0) 0
         = Returned (koch_points (Z.to_nat (-3)) 1 (0, 0) 0)).
Proof.
  apply (koch_curve_invalid_input 5 (-3) 1 (0, 0) 0).
  - unfold valid_input. intros [H _]. lia.
  - simpl. lia.
Defined.

(** C7 fails as stated: the length -1 is outside the precondition, and the
    call returns a polyline instead of raising. *)
Lemma koch_curve_negative_length_returns :
  ~ valid_input 0 (-1)
  /\ koch_curve 1 0 (-1) (0, 0) 0 = Returned [(0, 0); advance (0, 0) (-1) 0].
Proof.
  split; [|reflexivity].
  unfold valid_input. intros [_ H]. lra.
Qed.

End ErrorBehaviour.

(** ** Properties of the request-parameter helpers *)

Section ParamsProperties.
Import Py Koch Params Plot.
Local Open Scope R_scope.

Variable int_of_str : string -> option Z.
Variable float_of_str : string -> option pyfloat.

Lemma max_min_int_clamp x : max_int 0 (min_int 7 x) = Z.max 0 (Z.min 7 x).
Proof.
  unfold max_int, min_int.
  destruct (Z.ltb_spec x 7); destruct (Z.ltb_spec 0 x);
    try destruct (Z.ltb_spec 0 7); lia.
Qed.

Lemma max_min_float_clamp x :
  max_float (FFin (1 / 10)) (min_float (FFin 10) x) = FFin (clamp_float x).
Proof.
  unfold max_float, min_float, clamp_float, Rmax, Rmin.
  destruct x as [| | |r]; cbn;
    repeat match goal with
           | |- context [Rlt_dec ?u ?v] => destruct (Rlt_dec u v); cbn
           | |- context [Rle_dec 10 ?v] => destruct (Rle_dec 10 v); cbn
           | |- context [Rle_dec ?u ?v] => destruct (Rle_dec u v); cbn
           end;
    try reflexivity; try (exfalso; lra); f_equal; lra.
Qed.

Lemma clamp_float_range x : 1 / 10 <= clamp_float x <= 10.
Proof.
  unfold clamp_float, Rmax, Rmin.
  destruct x as [| | |r];
    repeat match goal with
           | |- context [Rle_dec 10 ?v] => destruct (Rle_dec 10 v)
           | |- context [Rle_dec ?u ?v] => destruct (Rle_dec u v)
           end; lra.
Qed.

Lemma clamp_int_range v : (0 <= _clamp_int int_of_str v 0 7 4 <= 7)%Z.
Proof.
  unfold _clamp_int. destruct (int int_of_str v); [|lia].
  rewrite max_min_int_clamp. lia.
Qed.

Lemma get_lookup_first args key default :
  get args key default
  = match lookup_first args key with Some v => VStr v | None => default end.
Proof.
  unfold lookup_first.
  induction args as [|[k v] rest IH]; [reflexivity|].
  cbn [get find fst]. destruct (String.eqb k key); [reflexivity | exact IH].
Qed.

End ParamsProperties.

Section HelperClaims.
Import Py Koch Params Plot.
Local Open Scope R_scope.
Local Open Scope string_scope.

(** C8, as the code has it.  [_hex_color] checks the shape of its input
    and not its digits: the input is returned unchanged when it is a [str]
    made of [#] followed by exactly 3 or 6 characters of any kind, and the
    default is returned otherwise; so every [#RGB] and [#RRGGBB] colour is
    returned unchanged. *)
Theorem hex_color_shape_check (v default : pyval) :
  ((exists body, v = VStr (String "#" body)
                 /\ (String.length body = 3 \/ String.length body = 6)%nat)
   -> _hex_color v default = v)
  /\ (~ (exists body, v = VStr (String "#" body)
                      /\ (String.length body = 3 \/ String.length body = 6)%nat)
      -> _hex_color v default = default)
  /\ (forall s, v = VStr s -> hex_color_format s = true
                -> _hex_color v default = v).
Proof.
  assert (Hshape : forall body,
             (String.length body = 3 \/ String.length body = 6)%nat ->
             _hex_color (VStr (String "#" body)) default
             = VStr (String "#" body)).
  { intros body Hlen. cbn [_hex_color String.length].
    replace (Nat.eqb (S (String.length body)) 4
             || Nat.eqb (S (String.length body)) 7)%bool with true.
    - cbn [andb String.prefix].
      destruct (ascii_dec "#" "#"); [destruct body | congruence]; reflexivity.
    - symmetry. apply orb_true_iff.
      destruct Hlen as [H|H]; rewrite H; [left | right]; reflexivity. }
  split; [|split].
  - intros [body [-> Hlen]]. apply Hshape, Hlen.
  - intros Hno. destruct v as [s|n|x]; try reflexivity.
    cbn [_hex_color].
    destruct ((Nat.eqb (String.length s) 4 || Nat.eqb (String.length s) 7)
              && String.prefix "#" s)%bool eqn:E; [exfalso | reflexivity].
    apply andb_prop in E as [Elen Epre].
    destruct s as [|ch body]; [discriminate|].
    cbn [String.prefix] in Epre.
    destruct (ascii_dec "#" ch) as [<-|]; [|discriminate].
    apply Hno. exists body. split; [reflexivity|].
    cbn [String.length] in Elen.
    apply orb_prop in Elen as [H|H]; apply Nat.eqb_eq in H; lia.
  - intros s -> Hfmt.
    destruct s as [|ch body]; [discriminate|].
    destruct ch as [[] [] [] [] [] [] [] []]; try discriminate.
    cbn [hex_color_format] in Hfmt.
    apply andb_prop in Hfmt as [Hlen _].
    apply Hshape.
    apply orb_prop in Hlen as [H|H]; apply Nat.eqb_eq in H; auto.
Qed.

Lemma hex_color_shape_check_witness :
  _hex_color (VStr "#zzz") (VStr "#67e8f9") = VStr "#zzz"
  /\ _hex_color (VStr "red") (VStr "#67e8f9") = VStr "#67e8f9"
  /\ _hex_color (VStr "#0af") (VStr "#67e8f9") = VStr "#0af".
Proof.
  split; [|split].
  - apply (proj1 (hex_color_shape_check (VStr "#zzz") (VStr "#67e8f9"))).
    exists "zzz". split; [reflexivity | left; reflexivity].
  - apply (proj1 (proj2 (hex_color_shape_check (VStr "red") (VStr "#67e8f9")))).
    intros [body [H _]]. discriminate H.
  - apply (proj2 (proj2 (hex_color_shape_check (VStr "#0af") (VStr "#67e8f9")))
             "#0af"); reflexivity.
Defined.

(** C8 fails as stated: [#zzz] is not a hexadecimal colour, and it is
    returned unchanged instead of the default. *)
Lemma hex_color_keeps_non_hex_digits :
  hex_color_format "#zzz" = false
  /\ _hex_color (VStr "#zzz") (VStr "#67e8f9") = VStr "#zzz"
  /\ VStr "#zzz" <> VStr "#67e8f9".
Proof. split; [reflexivity | split; [reflexivity | discriminate]]. Qed.

(** C9. For every request argument mapping (and whatever the builtins
    [int] and [float] make of a string), [_get_params] returns without
    raising, with [order] an integer in [0, 7] and [lw] a finite value in
    [0.1, 10.0]: a value that parses is clamped, a value that does not
    parse is replaced by the default (4, resp. 1.0); and [plot] calls the
    core with that order only. *)
Theorem get_params_clamps int_of_str float_of_str depth args :
  let p := _get_params int_of_str float_of_str args in
  (0 <= order p <= 7)%Z
  /\ (exists r, lw p = FFin r /\ 1 / 10 <= r <= 10)
  /\ order p = match int int_of_str (get args "order" (VInt 4)) with
               | Returned x => Z.max 0 (Z.min 7 x)
               | Raised _ => 4%Z
               end
  /\ lw p = match float float_of_str (get args "lw" (VFloat (FFin (18 / 10)))) with
            | Returned x => FFin (clamp_float x)
            | Raised _ => FFin 1
            end
  /\ (plot int_of_str float_of_str depth args
      = (pts <- koch_curve depth (order p) 1 (-0.5, 0) 0 ;; Returned (Curve pts))
      \/ plot int_of_str float_of_str depth args
         = (sides <- koch_two_sides depth (order p) 1 ;;
            Returned (TwoSides (fst sides) (snd sides)))
      \/ plot int_of_str float_of_str depth args
         = (sides <- koch_snowflake depth (order p) 1 ;;
            Returned (Snowflake sides))).
Proof.
  intros p. subst p. cbn [_get_params order lw].
  split; [apply clamp_int_range|].
  split.
  { unfold _float_pos. destruct (float float_of_str _).
    - rewrite max_min_float_clamp. eexists. split; [reflexivity|].
      apply clamp_float_range.
    - exists 1. split; [reflexivity | lra]. }
  split.
  { unfold _clamp_int. destruct (int int_of_str _); [|reflexivity].
    apply max_min_int_clamp. }
  split.
  { unfold _float_pos. destruct (float float_of_str _); [|reflexivity].
    apply max_min_float_clamp. }
  unfold plot. cbn [_get_params order fig].
  destruct (eq_str _ "curve"); [left; reflexivity|].
  destruct (eq_str _ "two"); [right; left; reflexivity|].
  right; right; reflexivity.
Qed.

End HelperClaims.

Section PlotClaims.
Import Py Koch Params Plot.
Local Open Scope R_scope.
Local Open Scope string_scope.

Lemma koch_snowflake_returns depth order len :
  (0 <= order)%Z -> (Z.to_nat order < depth)%nat ->
  exists sides, koch_snowflake depth order len = Returned sides.
Proof.
  intros Ho Hd. unfold koch_snowflake.
  rewrite !koch_curve_returns by assumption. eexists. reflexivity.
Qed.

(** C10. [fig] is not checked against curve, two, snow: [_get_params]
    returns the request's [fig] value unchanged (and "curve" only when
    the request has none), and for every [fig] value other than "curve"
    and "two", whether or not it is "snow", [plot] takes the snowflake
    branch (and, given 8 frames, returns the snowflake). *)
Theorem plot_fig_not_validated int_of_str float_of_str depth args :
  let p := _get_params int_of_str float_of_str args in
  fig p = match lookup_first args "fig" with
          | Some v => VStr v
          | None => VStr "curve"
          end
  /\ forall v, fig p = VStr v -> v <> "curve" -> v <> "two" ->
       plot int_of_str float_of_str depth args
       = (sides <- koch_snowflake depth (order p) 1 ;; Returned (Snowflake sides))
       /\ ((8 <= depth)%nat ->
           exists sides,
             plot int_of_str float_of_str depth args = Returned (Snowflake sides)).
Proof.
  intros p. split.
  - subst p. cbn [_get_params fig]. apply get_lookup_first.
  - intros v Hfig Hc Ht.
    assert (Hplot : plot int_of_str float_of_str depth args
                    = (sides <- koch_snowflake depth (order p) 1 ;;
                       Returned (Snowflake sides))).
    { unfold plot. fold p. rewrite Hfig. cbn [eq_str].
      apply String.eqb_neq in Hc, Ht. rewrite Hc, Ht. reflexivity. }
    split; [exact Hplot|].
    intros Hd. rewrite Hplot.
    pose proof (clamp_int_range int_of_str (get args "order" (VInt 4))) as Hr.
    destruct (koch_snowflake_returns depth (order p) 1) as [sides Hs].
    + subst p. cbn [_get_params order]. lia.
    + subst p. cbn [_get_params order]. lia.
    + rewrite Hs. eexists. reflexivity.
Qed.

Lemma plot_fig_not_validated_witness :
  fig (_get_params (fun _ => Some 9%Z) (fun _ => None)
         [("order", "9"); ("fig", "banana")])
  = VStr "banana"
  /\ exists sides,
       plot (fun _ => Some 9%Z) (fun _ => None) 8
         [("order", "9"); ("fig", "banana")]
       = Returned (Snowflake sides).
Proof.
  pose proof (plot_fig_not_validated (fun _ => Some 9%Z) (fun _ => None) 8
                [("order", "9"); ("fig", "banana")]) as [Hfig Hsnow].
  split; [exact Hfig|].
  apply (Hsnow "banana"); [exact Hfig | discriminate | discriminate | lia].
Defined.

End PlotClaims.

(** ** The curves of order 0 and 1 on the unit segment *)

Section Examples.
Import Py Koch.
Local Open Scope R_scope.

Example koch_curve_order_0 :
  koch_curve 1 0 1 (0, 0) 0 = Returned [(0, 0); (1, 0)].
Proof.
  cbn [koch_curve Z.eqb fst snd].
  rewrite radians_0, cos_0, sin_0.
  apply f_equal, f_equal2; [reflexivity|].
  apply f_equal2; [apply f_equal2; ring | reflexivity].
Qed.

Example koch_curve_order_1 :
  koch_curve 2 1 1 (0, 0) 0
  = Returned [(0, 0); (1 / 3, 0); (1 / 2, sqrt 3 / 6); (2 / 3, 0); (1, 0)].
Proof.
  rewrite koch_curve_returns by (simpl; lia).
  change (Z.to_nat 1) with 1%nat.
  cbn [koch_points slice_drop_last removelast app].
  unfold advance; cbn [fst snd].
  rewrite radians_plus_60, radians_minus_60, radians_0.
  replace (0 + PI / 3) with (PI / 3) by ring.
  replace (0 - PI / 3) with (- (PI / 3)) by ring.
  rewrite cos_neg, sin_neg, cos_0, sin_0, cos_PI3, sin_PI3.
  repeat match goal with
         | |- Returned _ = Returned _ => apply f_equal
         | |- _ :: _ = _ :: _ => apply f_equal2
         | |- (_, _) = (_, _) => apply f_equal2
         end; try reflexivity; field.
Qed.

End Examples.


(** ** Further properties of the core *)

Section CoreSymmetries.
Import Py Koch Geometry.
Local Open Scope R_scope.

Lemma advance_translate t p seg a :
  advance (translate t p) seg a = translate t (advance p seg a).
Proof. unfold advance, translate; simpl. f_equal; ring. Qed.

Lemma koch_points_translate t n :
  forall len s a,
    koch_points n len (translate t s) a
    = map (translate t) (koch_points n len s a).
Proof.
  induction n as [|n IH]; intros len s a.
  - cbn [koch_points map]. rewrite advance_translate. reflexivity.
  - cbn [koch_points].
    rewrite !map_app, <- !slice_drop_last_map.
    rewrite !advance_translate, !IH. reflexivity.
Qed.

Lemma radians_plus a b : radians (a + b) = radians a + radians b.
Proof. unfold radians. ring. Qed.

Lemma advance_rotate c th p seg a :
  advance (rotate_about c th p) seg (a + th)
  = rotate_about c th (advance p seg a).
Proof.
  unfold advance, rotate_about; cbn [fst snd].
  rewrite radians_plus, cos_plus, sin_plus. f_equal; ring.
Qed.

Lemma koch_points_rotate c th n :
  forall len s a,
    koch_points n len (rotate_about c th s) (a + th)
    = map (rotate_about c th) (koch_points n len s a).
Proof.
  induction n as [|n IH]; intros len s a.
  - cbn [koch_points map]. rewrite advance_rotate. reflexivity.
  - cbn [koch_points].
    rewrite !map_app, <- !slice_drop_last_map.
    replace (a + th + 60) with (a + 60 + th) by ring.
    replace (a + th - 60) with (a - 60 + th) by ring.
    rewrite !advance_rotate, !IH. reflexivity.
Qed.

Lemma rotate_about_centre c th : rotate_about c th c = c.
Proof. destruct c as [x y]. unfold rotate_about; cbn [fst snd]. f_equal; ring. Qed.

Lemma advance_full_turn p seg a : advance p seg (a + 360) = advance p seg a.
Proof.
  unfold advance.
  replace (radians (a + 360)) with (radians a + 2 * PI)
    by (unfold radians; field).
  rewrite cos_plus, sin_plus, cos_2PI, sin_2PI. f_equal; ring.
Qed.

Lemma koch_points_full_turn n :
  forall len s a, koch_points n len s (a + 360) = koch_points n len s a.
Proof.
  induction n as [|n IH]; intros len s a.
  - cbn [koch_points]. rewrite advance_full_turn. reflexivity.
  - cbn [koch_points].
    replace (a + 360 + 60) with (a + 60 + 360) by ring.
    replace (a + 360 - 60) with (a - 60 + 360) by ring.
    rewrite !advance_full_turn, !IH. reflexivity.
Qed.

(** X1. For a real (finite) length, start and angle, the outcome of
    [koch_curve] is fixed by the order and the frames left for it: the
    polyline of [koch_points] when the order is non-negative and more than
    [order] frames are left, [RecursionError] otherwise, a negative order
    included.  (An infinite angle is outside this embedding; the
    embedding on floats covers it.) *)
Theorem koch_curve_outcome depth order len s a :
  koch_curve depth order len s a
  = if ((0 <=? order)%Z && (Z.to_nat order <? depth)%nat)%bool
    then Returned (koch_points (Z.to_nat order) len s a)
    else Raised RecursionError.
Proof.
  destruct (Z.leb_spec 0 order) as [Ho|Ho]; cbn [andb].
  - destruct (Nat.ltb_spec (Z.to_nat order) depth) as [Hd|Hd].
    + apply koch_curve_returns; assumption.
    + apply koch_curve_stack_exhausted. lia.
  - apply koch_curve_negative, Ho.
Qed.

(** X2. Moving the start point by a vector moves every point of the curve
    by that vector. *)
Theorem koch_curve_translation depth order len s a t :
  (0 <= order)%Z -> (Z.to_nat order < depth)%nat ->
  exists pts,
    koch_curve depth order len s a = Returned pts
    /\ koch_curve depth order len (translate t s) a
       = Returned (map (translate t) pts).
Proof.
  intros Ho Hd. eexists. split.
  - apply koch_curve_returns; assumption.
  - rewrite koch_curve_returns by assumption.
    rewrite koch_points_translate. reflexivity.
Qed.

Lemma koch_curve_translation_witness :
  exists pts,
    koch_curve 3 2 1 (0, 0) 15 = Returned pts
    /\ koch_curve 3 2 1 (translate (4, -1) (0, 0)) 15
       = Returned (map (translate (4, -1)) pts).
Proof.
  apply (koch_curve_translation 3 2 1 (0, 0) 15 (4, -1)); [lia | simpl; lia].
Defined.

(** X3. In exact real arithmetic, adding [th] degrees to [angle_deg]
    turns the whole curve by [th] degrees around its start point. *)
Theorem koch_curve_rotation depth order len s a th :
  (0 <= order)%Z -> (Z.to_nat order < depth)%nat ->
  exists pts,
    koch_curve depth order len s a = Returned pts
    /\ koch_curve depth order len s (a + th)
       = Returned (map (rotate_about s th) pts).
Proof.
  intros Ho Hd. eexists. split.
  - apply koch_curve_returns; assumption.
  - rewrite koch_curve_returns by assumption.
    rewrite <- koch_points_rotate, rotate_about_centre. reflexivity.
Qed.

Lemma koch_curve_rotation_witness :
  exists pts,
    koch_curve 3 2 1 (1, 2) 0 = Returned pts
    /\ koch_curve 3 2 1 (1, 2) (0 + 120)
       = Returned (map (rotate_about (1, 2) 120) pts).
Proof.
  apply (koch_curve_rotation 3 2 1 (1, 2) 0 120); [lia | simpl; lia].
Defined.

(** X4. In exact real arithmetic the angle need not be normalised: a
    full turn more gives the same outcome, point for point (on the floats
    the two agree up to rounding only). *)
Theorem koch_curve_full_turn depth order len s a :
  koch_curve depth order len s (a + 360) = koch_curve depth order len s a.
Proof.
  destruct (Z_lt_le_dec order 0) as [Hneg|Hpos].
  - rewrite !koch_curve_negative by assumption. reflexivity.
  - destruct (le_lt_dec depth (Z.to_nat order)) as [Hd|Hd].
    + rewrite !koch_curve_stack_exhausted by lia. reflexivity.
    + rewrite !koch_curve_returns by assumption.
      rewrite koch_points_full_turn. reflexivity.
Qed.

End CoreSymmetries.

Section CoreShape.
Import Py Koch Geometry.
Local Open Scope R_scope.

Lemma dist2_advance s len a : dist2 s (advance s len a) = len * len.
Proof.
  unfold dist2, advance; cbn [fst snd].
  pose proof (sin2_cos2 (radians a)) as H. unfold Rsqr in H.
  replace (fst s + len * cos (radians a) - fst s) with (len * cos (radians a))
    by ring.
  replace (snd s + len * sin (radians a) - snd s) with (len * sin (radians a))
    by ring.
  replace (len * cos (radians a) * (len * cos (radians a))
           + len * sin (radians a) * (len * sin (radians a)))
    with (len * len * (sin (radians a) * sin (radians a)
                       + cos (radians a) * cos (radians a))) by ring.
  rewrite H. ring.
Qed.

(** Two chains of equal steps that meet end to start make one chain, the
    meeting point being kept once. *)
Lemma equal_steps_join d (l1 l2 : polyline) q :
  last l1 = Some q -> first l2 = Some q ->
  equal_steps d l1 -> equal_steps d l2 ->
  equal_steps d (slice_drop_last l1 ++ l2).
Proof.
  intros Hlast Hfirst H1 H2. unfold slice_drop_last.
  induction l1 as [|x [|y l] IH].
  - discriminate.
  - exact H2.
  - rewrite last_cons_cons in Hlast.
    destruct H1 as [Hxy H1]. specialize (IH Hlast H1).
    destruct l as [|z l].
    + injection Hlast as ->.
      destruct l2 as [|q' l2]; [discriminate|].
      injection Hfirst as ->.
      cbn [removelast app]. cbn [removelast app] in IH.
      split; assumption.
    + change (removelast (x :: y :: z :: l))
        with (x :: y :: removelast (z :: l)).
      change (removelast (y :: z :: l)) with (y :: removelast (z :: l)) in IH.
      cbn [app] in *. split; assumption.
Qed.

Lemma equal_steps_nth d (l : polyline) :
  equal_steps d l ->
  forall i p q, nth_error l i = Some p -> nth_error l (S i) = Some q ->
                dist2 p q = d.
Proof.
  induction l as [|x [|y l] IH]; intros H i p q Hp Hq.
  - destruct i; discriminate.
  - destruct i as [|i]; [discriminate|]. destruct i; discriminate.
  - destruct H as [Hxy H]. destruct i as [|i].
    + cbn in Hp, Hq. injection Hp as <-. injection Hq as <-. exact Hxy.
    + apply (IH H i); assumption.
Qed.

Lemma koch_points_two n len s a :
  (2 <= List.length (koch_points n len s a))%nat.
Proof.
  rewrite koch_points_length. pose proof (Nat.pow_nonzero 4 n). lia.
Qed.

Lemma koch_points_equal_steps n :
  forall len s a,
    equal_steps ((len / 3 ^ n) * (len / 3 ^ n)) (koch_points n len s a).
Proof.
  induction n as [|n IH]; intros len s a.
  - cbn [koch_points equal_steps pow]. split; [|exact I].
    rewrite dist2_advance. field.
  - replace (len / 3 ^ S n * (len / 3 ^ S n))
      with (len / 3 / 3 ^ n * (len / 3 / 3 ^ n))
      by (cbn [pow]; field; apply pow_nonzero; lra).
    cbn [koch_points].
    apply equal_steps_join with (q := advance s (len / 3) a);
      [apply koch_points_last
      | apply first_app, first_slice_drop_last;
        [apply koch_points_two | apply koch_points_first]
      | apply IH |].
    eapply equal_steps_join;
      [apply koch_points_last
      | apply first_app, first_slice_drop_last;
        [apply koch_points_two | apply koch_points_first]
      | apply IH |].
    eapply equal_steps_join;
      [apply koch_points_last | apply koch_points_first | apply IH | apply IH].
Qed.

(** X5. In exact real arithmetic, all the segments of the polyline have
    the same length, [length / 3^order]: any two consecutive points are at
    that distance (stated on the squared distance). *)
Theorem koch_curve_segment_length depth order len s a :
  (0 <= order)%Z -> (Z.to_nat order < depth)%nat ->
  exists pts,
    koch_curve depth order len s a = Returned pts
    /\ forall i p q,
         nth_error pts i = Some p -> nth_error pts (S i) = Some q ->
         dist2 p q = (len / 3 ^ Z.to_nat order) * (len / 3 ^ Z.to_nat order).
Proof.
  intros Ho Hd. eexists. split.
  - apply koch_curve_returns; assumption.
  - apply equal_steps_nth, koch_points_equal_steps.
Qed.

Lemma koch_curve_segment_length_witness :
  exists pts,
    koch_curve 3 2 9 (0, 0) 0 = Returned pts
    /\ forall i p q,
         nth_error pts i = Some p -> nth_error pts (S i) = Some q ->
         dist2 p q = (9 / 3 ^ Z.to_nat 2) * (9 / 3 ^ Z.to_nat 2).
Proof.
  apply (koch_curve_segment_length 3 2 9 (0, 0) 0); [lia | simpl; lia].
Defined.

End CoreShape.

Section CoreHull.
Import Py Koch Geometry.
Local Open Scope R_scope.

Lemma sqrt3_sqr : sqrt 3 * sqrt 3 = 3.
Proof. apply sqrt_sqrt. lra. Qed.

Lemma sqrt3_pos : 0 < sqrt 3.
Proof. apply sqrt_lt_R0. lra. Qed.

Lemma in_slice_drop_last {A : Type} (x : A) (l : list A) :
  In x (slice_drop_last l) -> In x l.
Proof.
  unfold slice_drop_last.
  induction l as [|a [|b l] IH]; intros H.
  - exact H.
  - destruct H.
  - change (removelast (a :: b :: l)) with (a :: removelast (b :: l)) in H.
    destruct H as [H|H]; [left; exact H | right; apply IH, H].
Qed.

(** The triangle of each of the four legs lies in the triangle of the
    whole segment. *)
Lemma in_triangle_leg1 s len a p :
  0 <= len -> in_triangle s (len / 3) a p -> in_triangle s len a p.
Proof.
  intros Hlen (x & y & -> & Hy & Hx1 & Hx2).
  exists x, y. repeat split; try assumption. lra.
Qed.

Lemma in_triangle_leg2 s len a p :
  0 <= len ->
  in_triangle (advance s (len / 3) a) (len / 3) (a + 60) p ->
  in_triangle s len a p.
Proof.
  intros Hlen (x & y & -> & Hy & Hx1 & Hx2).
  pose proof sqrt3_sqr as Hr. pose proof sqrt3_pos as Hp.
  assert (Hry : 0 <= sqrt 3 * y) by (apply Rmult_le_pos; lra).
  assert (Hrx : 0 <= sqrt 3 * x) by (apply Rmult_le_pos; lra).
  exists (len / 3 + x / 2 - sqrt 3 / 2 * y), (sqrt 3 / 2 * x + y / 2).
  split; [|split; [|split]].
  - unfold advance; cbn [fst snd].
    rewrite radians_plus_60, cos_plus, sin_plus, cos_PI3, sin_PI3.
    f_equal; field.
  - lra.
  - replace (sqrt 3 * (sqrt 3 / 2 * x + y / 2))
      with (sqrt 3 * sqrt 3 / 2 * x + sqrt 3 * y / 2) by field.
    rewrite Hr. lra.
  - replace (sqrt 3 * (sqrt 3 / 2 * x + y / 2))
      with (sqrt 3 * sqrt 3 / 2 * x + sqrt 3 * y / 2) by field.
    rewrite Hr. lra.
Qed.

Lemma in_triangle_leg3 s len a p :
  0 <= len ->
  in_triangle (advance (advance s (len / 3) a) (len / 3) (a + 60))
    (len / 3) (a - 60) p ->
  in_triangle s len a p.
Proof.
  intros Hlen (x & y & -> & Hy & Hx1 & Hx2).
  pose proof sqrt3_sqr as Hr. pose proof sqrt3_pos as Hp.
  assert (Hry : 0 <= sqrt 3 * y) by (apply Rmult_le_pos; lra).
  assert (Hrx : sqrt 3 * x <= sqrt 3 * (len / 3))
    by (apply Rmult_le_compat_l; lra).
  exists (len / 2 + x / 2 + sqrt 3 / 2 * y), (len * sqrt 3 / 6 - sqrt 3 / 2 * x + y / 2).
  split; [|split; [|split]].
  - unfold advance; cbn [fst snd].
    rewrite radians_plus_60, radians_minus_60.
    rewrite cos_plus, sin_plus, cos_minus, sin_minus, cos_PI3, sin_PI3.
    f_equal; field.
  - lra.
  - replace (sqrt 3 * (len * sqrt 3 / 6 - sqrt 3 / 2 * x + y / 2))
      with (sqrt 3 * sqrt 3 * (len / 6 - x / 2) + sqrt 3 * y / 2) by field.
    rewrite Hr. lra.
  - replace (sqrt 3 * (len * sqrt 3 / 6 - sqrt 3 / 2 * x + y / 2))
      with (sqrt 3 * sqrt 3 * (len / 6 - x / 2) + sqrt 3 * y / 2) by field.
    rewrite Hr. lra.
Qed.

Lemma in_triangle_leg4 s len a p :
  0 <= len ->
  in_triangle
    (advance (advance (advance s (len / 3) a) (len / 3) (a + 60))
       (len / 3) (a - 60))
    (len / 3) a p ->
  in_triangle s len a p.
Proof.
  intros Hlen (x & y & -> & Hy & Hx1 & Hx2).
  exists (2 * len / 3 + x), y.
  split; [|split; [|split]].
  - unfold advance; cbn [fst snd].
    rewrite radians_plus_60, radians_minus_60.
    rewrite cos_plus, sin_plus, cos_minus, sin_minus, cos_PI3, sin_PI3.
    f_equal; field.
  - lra.
  - lra.
  - lra.
Qed.

Lemma in_triangle_start s len a : 0 <= len -> in_triangle s len a s.
Proof.
  intros Hlen. exists 0, 0. destruct s as [sx sy]; cbn [fst snd].
  repeat split; try lra. f_equal; ring.
Qed.

Lemma in_triangle_end s len a :
  0 <= len -> in_triangle s len a (advance s len a).
Proof.
  intros Hlen. exists len, 0. unfold advance.
  repeat split; try lra. f_equal; ring.
Qed.

Lemma koch_points_in_triangle n :
  forall len s a p,
    0 <= len -> In p (koch_points n len s a) -> in_triangle s len a p.
Proof.
  induction n as [|n IH]; intros len s a p Hlen Hin.
  - cbn [koch_points] in Hin. destruct Hin as [<-|[<-|[]]].
    + apply in_triangle_start, Hlen.
    + apply in_triangle_end, Hlen.
  - assert (Hseg : 0 <= len / 3) by lra.
    cbn [koch_points] in Hin.
    repeat (apply in_app_or in Hin as [Hin|Hin]);
      try apply in_slice_drop_last in Hin;
      apply IH in Hin; try assumption.
    + apply in_triangle_leg1; assumption.
    + apply in_triangle_leg2; assumption.
    + apply in_triangle_leg3; assumption.
    + apply in_triangle_leg4; assumption.
Qed.

(** X6. In exact real arithmetic, for a non-negative length, every point
    of the curve lies in the
    triangle built on the segment from [start] to its end point, with apex
    on the left at height [length * sqrt 3 / 6]: the curve never leaves the
    hull of its order-1 shape, whatever the order. *)
Theorem koch_curve_in_triangle depth order len s a :
  (0 <= order)%Z -> (Z.to_nat order < depth)%nat -> 0 <= len ->
  exists pts,
    koch_curve depth order len s a = Returned pts
    /\ forall p, In p pts -> in_triangle s len a p.
Proof.
  intros Ho Hd Hlen. eexists. split.
  - apply koch_curve_returns; assumption.
  - intros p Hin. eapply koch_points_in_triangle; eassumption.
Qed.

Lemma koch_curve_in_triangle_witness :
  exists pts,
    koch_curve 4 3 1 (0, 0) 45 = Returned pts
    /\ forall p, In p pts -> in_triangle (0, 0) 1 45 p.
Proof.
  apply (koch_curve_in_triangle 4 3 1 (0, 0) 45); [lia | simpl; lia | lra].
Defined.

End CoreHull.

(** ** Properties of the two assemblers *)

Section Assemblers.
Import Py Koch Geometry.
Local Open Scope R_scope.

Lemma radians_60 : radians 60 = PI / 3.
Proof. unfold radians. field. Qed.

Lemma koch_points_count_Z n len s a :
  Z.of_nat (List.length (koch_points n len s a)) = (4 ^ Z.of_nat n + 1)%Z.
Proof. rewrite koch_points_length, Nat2Z.inj_add, Nat2Z.inj_pow. reflexivity. Qed.

(** X7. [koch_two_sides] returns two polylines of [4^order + 1] points
    each (when [order + 1] frames are left for [koch_curve]); in exact real
    arithmetic the first runs from [(-length/2, 0)] to [(length/2, 0)], the
    second from the middle of that base, [(0, 0)], to
    [(length/2, sqrt 3 / 2 * length)]. *)
Theorem koch_two_sides_endpoints depth order len :
  (0 <= order)%Z -> (Z.to_nat order < depth)%nat ->
  exists side1 side2,
    koch_two_sides depth order len = Returned (side1, side2)
    /\ Z.of_nat (List.length side1) = (4 ^ order + 1)%Z
    /\ Z.of_nat (List.length side2) = (4 ^ order + 1)%Z
    /\ first side1 = Some (- len / 2, 0)
    /\ last side1 = Some (len / 2, 0)
    /\ first side2 = Some (0, 0)
    /\ last side2 = Some (len / 2, sqrt 3 / 2 * len).
Proof.
  intros Ho Hd. unfold koch_two_sides.
  rewrite !koch_curve_returns by assumption. cbn [bind].
  do 2 eexists. split; [reflexivity|].
  rewrite !koch_points_count_Z, !koch_points_first, !koch_points_last.
  rewrite Z2Nat.id by assumption.
  repeat split; f_equal; unfold advance; cbn [fst snd].
  - rewrite radians_0, cos_0, sin_0. f_equal; field.
  - rewrite radians_60, cos_PI3, sin_PI3. f_equal; field.
Qed.

Lemma koch_two_sides_endpoints_witness :
  exists side1 side2,
    koch_two_sides 64 2 1 = Returned (side1, side2)
    /\ Z.of_nat (List.length side1) = (4 ^ 2 + 1)%Z
    /\ Z.of_nat (List.length side2) = (4 ^ 2 + 1)%Z
    /\ first side1 = Some (- 1 / 2, 0)
    /\ last side1 = Some (1 / 2, 0)
    /\ first side2 = Some (0, 0)
    /\ last side2 = Some (1 / 2, sqrt 3 / 2 * 1).
Proof.
  apply (koch_two_sides_endpoints 64 2 1); [lia | simpl; lia].
Defined.

(** X8. [koch_snowflake] returns three polylines of [4^order + 1] points
    each, and in exact real arithmetic their start points are the corners
    of an equilateral triangle of side [length]: any two of them are at
    distance [length] (stated on the squared distance). *)
Theorem koch_snowflake_equilateral depth order len :
  (0 <= order)%Z -> (Z.to_nat order < depth)%nat ->
  exists side1 side2 side3 p1 p2 p3,
    koch_snowflake depth order len = Returned [side1; side2; side3]
    /\ Z.of_nat (List.length side1) = (4 ^ order + 1)%Z
    /\ Z.of_nat (List.length side2) = (4 ^ order + 1)%Z
    /\ Z.of_nat (List.length side3) = (4 ^ order + 1)%Z
    /\ first side1 = Some p1 /\ first side2 = Some p2 /\ first side3 = Some p3
    /\ dist2 p1 p2 = len * len
    /\ dist2 p2 p3 = len * len
    /\ dist2 p3 p1 = len * len.
Proof.
  intros Ho Hd. unfold koch_snowflake.
  rewrite !koch_curve_returns by assumption. cbn [bind].
  do 6 eexists. split; [reflexivity|].
  rewrite !koch_points_count_Z, !koch_points_first.
  rewrite Z2Nat.id by assumption.
  repeat (split; [reflexivity|]).
  pose proof sqrt3_sqr as Hr.
  unfold dist2; cbn [fst snd].
  repeat split.
  - field.
  - replace ((0 - len / 2) * (0 - len / 2)
             + (sqrt 3 / 2 * len - 0) * (sqrt 3 / 2 * len - 0))
      with (len * len / 4 + sqrt 3 * sqrt 3 * (len * len / 4)) by field.
    rewrite Hr. field.
  - replace ((- len / 2 - 0) * (- len / 2 - 0)
             + (0 - sqrt 3 / 2 * len) * (0 - sqrt 3 / 2 * len))
      with (len * len / 4 + sqrt 3 * sqrt 3 * (len * len / 4)) by field.
    rewrite Hr. field.
Qed.

Lemma koch_snowflake_equilateral_witness :
  exists side1 side2 side3 p1 p2 p3,
    koch_snowflake 64 2 5 = Returned [side1; side2; side3]
    /\ Z.of_nat (List.length side1) = (4 ^ 2 + 1)%Z
    /\ Z.of_nat (List.length side2) = (4 ^ 2 + 1)%Z
    /\ Z.of_nat (List.length side3) = (4 ^ 2 + 1)%Z
    /\ first side1 = Some p1 /\ first side2 = Some p2 /\ first side3 = Some p3
    /\ dist2 p1 p2 = 5 * 5
    /\ dist2 p2 p3 = 5 * 5
    /\ dist2 p3 p1 = 5 * 5.
Proof.
  apply (koch_snowflake_equilateral 64 2 5); [lia | simpl; lia].
Defined.

(** The three sides stay in the triangle of their start points. *)
Lemma koch_snowflake_sides_inside n len p :
  0 <= len ->
  In p (koch_points n len (- len / 2, 0) 0)
  \/ In p (koch_points n len (len / 2, 0) 120)
  \/ In p (koch_points n len (0, sqrt 3 / 2 * len) (-120)) ->
  0 <= snd p
  /\ snd p <= sqrt 3 * (fst p + len / 2)
  /\ snd p <= sqrt 3 * (len / 2 - fst p).
Proof.
  intros Hlen Hin.
  pose proof sqrt3_sqr as Hr. pose proof sqrt3_pos as Hp.
  assert (Hin' : exists s a C S x y,
             cos (radians a) = C /\ sin (radians a) = S
             /\ p = (fst s + x * C - y * S, snd s + x * S + y * C)
             /\ 0 <= y /\ sqrt 3 * y <= x /\ sqrt 3 * y <= len - x
             /\ ((s = (- len / 2, 0) /\ C = 1 /\ S = 0)
                 \/ (s = (len / 2, 0) /\ C = -1 / 2 /\ S = sqrt 3 / 2)
                 \/ (s = (0, sqrt 3 / 2 * len) /\ C = -1 / 2
                     /\ S = - (sqrt 3 / 2)))).
  { destruct Hin as [Hin|[Hin|Hin]];
      apply koch_points_in_triangle in Hin; try assumption;
      destruct Hin as (x & y & Hpt & Hy & Hx1 & Hx2);
      do 4 eexists; exists x, y;
      (split; [reflexivity|]); (split; [reflexivity|]);
      (split; [exact Hpt|]); repeat (split; [assumption|]).
    - left. rewrite radians_0, cos_0, sin_0. auto.
    - right; left. rewrite radians_120, cos_2PI3, sin_2PI3. auto.
    - right; right.
      rewrite radians_minus_120, cos_neg, sin_neg, cos_2PI3, sin_2PI3. auto. }
  destruct Hin' as (s & a & C & S & x & y & _ & _ & -> & Hy & Hx1 & Hx2 & Hs).
  assert (Hry : 0 <= sqrt 3 * y) by (apply Rmult_le_pos; lra).
  assert (HA : 3 * y <= sqrt 3 * x).
  { replace (3 * y) with (sqrt 3 * (sqrt 3 * y))
      by (rewrite <- Rmult_assoc, Hr; reflexivity).
    apply Rmult_le_compat_l; lra. }
  assert (HB : 3 * y <= sqrt 3 * len - sqrt 3 * x).
  { replace (3 * y) with (sqrt 3 * (sqrt 3 * y))
      by (rewrite <- Rmult_assoc, Hr; reflexivity).
    replace (sqrt 3 * len - sqrt 3 * x) with (sqrt 3 * (len - x)) by ring.
    apply Rmult_le_compat_l; lra. }
  destruct Hs as [(-> & -> & ->)|[(-> & -> & ->)|(-> & -> & ->)]];
    cbn [fst snd]; repeat split.
  - lra.
  - replace (sqrt 3 * (- len / 2 + x * 1 - y * 0 + len / 2))
      with (sqrt 3 * x) by field. lra.
  - replace (sqrt 3 * (len / 2 - (- len / 2 + x * 1 - y * 0)))
      with (sqrt 3 * len - sqrt 3 * x) by field. lra.
  - lra.
  - replace (sqrt 3 * (len / 2 + x * (-1 / 2) - y * (sqrt 3 / 2) + len / 2))
      with (sqrt 3 * len - sqrt 3 * x / 2 - sqrt 3 * sqrt 3 * y / 2) by field.
    rewrite Hr. lra.
  - replace (sqrt 3 * (len / 2 - (len / 2 + x * (-1 / 2) - y * (sqrt 3 / 2))))
      with (sqrt 3 * x / 2 + sqrt 3 * sqrt 3 * y / 2) by field.
    rewrite Hr. lra.
  - lra.
  - replace (sqrt 3 * (0 + x * (-1 / 2) - y * - (sqrt 3 / 2) + len / 2))
      with (sqrt 3 * len / 2 - sqrt 3 * x / 2 + sqrt 3 * sqrt 3 * y / 2)
      by field.
    rewrite Hr. lra.
  - replace (sqrt 3 * (len / 2 - (0 + x * (-1 / 2) - y * - (sqrt 3 / 2))))
      with (sqrt 3 * len / 2 + sqrt 3 * x / 2 - sqrt 3 * sqrt 3 * y / 2)
      by field.
    rewrite Hr. lra.
Qed.

(** X9. In exact real arithmetic, for a non-negative length, no point of
    the three sides of
    [koch_snowflake] lies outside the triangle of corners
    [(-length/2, 0)], [(length/2, 0)], [(0, sqrt 3 / 2 * length)]: the
    bumps of the three curves point into the triangle. *)
Theorem koch_snowflake_inside_triangle depth order len :
  (0 <= order)%Z -> (Z.to_nat order < depth)%nat -> 0 <= len ->
  exists sides,
    koch_snowflake depth order len = Returned sides
    /\ forall side p, In side sides -> In p side ->
         0 <= snd p
         /\ snd p <= sqrt 3 * (fst p + len / 2)
         /\ snd p <= sqrt 3 * (len / 2 - fst p).
Proof.
  intros Ho Hd Hlen. unfold koch_snowflake.
  rewrite !koch_curve_returns by assumption. cbn [bind].
  eexists. split; [reflexivity|].
  intros side p Hside Hp.
  apply (koch_snowflake_sides_inside (Z.to_nat order)); [assumption|].
  destruct Hside as [<-|[<-|[<-|[]]]]; auto.
Qed.

Lemma koch_snowflake_inside_triangle_witness :
  exists sides,
    koch_snowflake 64 2 1 = Returned sides
    /\ forall side p, In side sides -> In p side ->
         0 <= snd p
         /\ snd p <= sqrt 3 * (fst p + 1 / 2)
         /\ snd p <= sqrt 3 * (1 / 2 - fst p).
Proof.
  apply (koch_snowflake_inside_triangle 64 2 1); [lia | simpl; lia | lra].
Defined.

End Assemblers.

(** ** Further properties of the request-parameter helpers *)

Section HelperExtras.
Import Py Koch Params.
Local Open Scope R_scope.
Local Open Scope string_scope.

Lemma max_int_max a b : max_int a b = Z.max a b.
Proof. unfold max_int. destruct (Z.ltb_spec a b); lia. Qed.

Lemma min_int_min a b : min_int a b = Z.min a b.
Proof. unfold min_int. destruct (Z.ltb_spec b a); lia. Qed.

(** X10. With [vmin <= vmax], a value that [int] accepts is brought into
    [vmin, vmax]: it is returned unchanged when already inside, and
    replaced by the nearer bound otherwise. *)
Theorem clamp_int_in_bounds int_of_str v vmin vmax default x :
  int int_of_str v = Returned x -> (vmin <= vmax)%Z ->
  let r := _clamp_int int_of_str v vmin vmax default in
  (vmin <= r <= vmax)%Z
  /\ ((vmin <= x <= vmax)%Z -> r = x)
  /\ ((x < vmin)%Z -> r = vmin)
  /\ ((vmax < x)%Z -> r = vmax).
Proof.
  intros Hx Hb r. subst r. unfold _clamp_int. rewrite Hx.
  unfold max_int, min_int.
  destruct (Z.ltb_spec x vmax);
    [destruct (Z.ltb_spec vmin x) | destruct (Z.ltb_spec vmin vmax)];
    repeat split; intros; lia.
Qed.

Lemma clamp_int_in_bounds_witness :
  let r := _clamp_int (fun _ => Some 12%Z) (VStr "12") 0 7 4 in
  (0 <= r <= 7)%Z
  /\ ((0 <= 12 <= 7)%Z -> r = 12%Z)
  /\ ((12 < 0)%Z -> r = 0%Z)
  /\ ((7 < 12)%Z -> r = 7%Z).
Proof.
  apply (clamp_int_in_bounds (fun _ => Some 12%Z) (VStr "12") 0 7 4 12);
    [reflexivity | lia].
Defined.

(** X11. With the bounds the wrong way round ([vmax < vmin]), every value
    that [int] accepts gives [vmin]: the lower bound wins. *)
Theorem clamp_int_inverted_bounds int_of_str v vmin vmax default x :
  int int_of_str v = Returned x -> (vmax < vmin)%Z ->
  _clamp_int int_of_str v vmin vmax default = vmin.
Proof.
  intros Hx Hb. unfold _clamp_int. rewrite Hx.
  unfold max_int, min_int.
  destruct (Z.ltb_spec x vmax);
    [destruct (Z.ltb_spec vmin x) | destruct (Z.ltb_spec vmin vmax)]; lia.
Qed.

Lemma clamp_int_inverted_bounds_witness :
  _clamp_int (fun _ => None) (VInt 5) 7 0 4 = 7%Z.
Proof.
  apply (clamp_int_inverted_bounds (fun _ => None) (VInt 5) 7 0 4 5);
    [reflexivity | lia].
Defined.

(** X12. Clamping is idempotent: with [vmin <= vmax] and a default inside
    the bounds, clamping the result of [_clamp_int] again gives it back,
    whatever the second default. *)
Theorem clamp_int_idempotent int_of_str v vmin vmax default default' :
  (vmin <= vmax)%Z -> (vmin <= default <= vmax)%Z ->
  _clamp_int int_of_str
    (VInt (_clamp_int int_of_str v vmin vmax default)) vmin vmax default'
  = _clamp_int int_of_str v vmin vmax default.
Proof.
  intros Hb Hd. unfold _clamp_int at 1. cbn [int].
  unfold _clamp_int. destruct (int int_of_str v) as [x|e];
    rewrite !max_int_max, !min_int_min; lia.
Qed.

Lemma clamp_int_idempotent_witness :
  _clamp_int (fun _ => Some 12%Z)
    (VInt (_clamp_int (fun _ => Some 12%Z) (VStr "12") 0 7 4)) 0 7 9
  = _clamp_int (fun _ => Some 12%Z) (VStr "12") 0 7 4.
Proof.
  apply (clamp_int_idempotent (fun _ => Some 12%Z) (VStr "12") 0 7 4 9); lia.
Defined.

(** X13. On every value that [float] accepts, not-a-number and the
    infinities included, [_float_pos] gives a finite width in [0.1, 10]:
    a finite value inside the range is unchanged, a not-a-number and plus
    infinity give 10, minus infinity gives 0.1. *)
Theorem float_pos_in_range float_of_str v default x :
  float float_of_str v = Returned x ->
  exists r,
    _float_pos float_of_str v default = FFin r
    /\ 1 / 10 <= r <= 10
    /\ (forall r0, x = FFin r0 -> 1 / 10 <= r0 <= 10 -> r = r0)
    /\ (x = FNaN \/ x = FPosInf -> r = 10)
    /\ (x = FNegInf -> r = 1 / 10).
Proof.
  intros Hx. unfold _float_pos. rewrite Hx, max_min_float_clamp.
  exists (clamp_float x). split; [reflexivity|].
  split; [apply clamp_float_range|]. split; [|split].
  - intros r0 -> Hr. unfold clamp_float, Rmax, Rmin.
    destruct (Rle_dec 10 r0);
      repeat match goal with
             | |- context [Rle_dec ?u ?w] => destruct (Rle_dec u w)
             end; lra.
  - intros [->| ->]; reflexivity.
  - intros ->. reflexivity.
Qed.

Lemma float_pos_in_range_witness :
  exists r,
    _float_pos (fun _ => Some FNaN) (VStr "nan") (FFin 1) = FFin r
    /\ 1 / 10 <= r <= 10
    /\ (forall r0, FNaN = FFin r0 -> 1 / 10 <= r0 <= 10 -> r = r0)
    /\ (FNaN = FNaN \/ FNaN = FPosInf -> r = 10)
    /\ (FNaN = FNegInf -> r = 1 / 10).
Proof.
  apply (float_pos_in_range (fun _ => Some FNaN) (VStr "nan") (FFin 1) FNaN).
  reflexivity.
Defined.

Lemma hex_color_keeps_shape v default :
  (exists body, default = VStr (String "#" body)
                /\ (String.length body = 3 \/ String.length body = 6)%nat) ->
  exists body, _hex_color v default = VStr (String "#" body)
               /\ (String.length body = 3 \/ String.length body = 6)%nat.
Proof.
  intros Hd. destruct v as [s|n|x]; try exact Hd.
  cbn [_hex_color].
  destruct ((Nat.eqb (String.length s) 4 || Nat.eqb (String.length s) 7)
            && String.prefix "#" s)%bool eqn:E; [|exact Hd].
  apply andb_prop in E as [Elen Epre].
  destruct s as [|ch body]; [discriminate|].
  cbn [String.prefix] in Epre.
  destruct (ascii_dec "#" ch) as [<-|]; [|discriminate].
  exists body. split; [reflexivity|].
  cbn [String.length] in Elen.
  apply orb_prop in Elen as [H|H]; apply Nat.eqb_eq in H; lia.
Qed.

(** X14. Whatever the request, the colours [c1] and [c2] that
    [_get_params] returns are strings made of [#] followed by exactly 3 or
    6 characters. *)
Theorem get_params_colors_shaped int_of_str float_of_str args :
  let p := _get_params int_of_str float_of_str args in
  (exists body, c1 p = VStr (String "#" body)
                /\ (String.length body = 3 \/ String.length body = 6)%nat)
  /\ (exists body, c2 p = VStr (String "#" body)
                   /\ (String.length body = 3 \/ String.length body = 6)%nat).
Proof.
  intros p. subst p. cbn [_get_params c1 c2].
  split; apply hex_color_keeps_shape; eexists; (split; [reflexivity|]);
    right; reflexivity.
Qed.

(** X15. The two fall-backs of the line width differ: a request without
    [lw] gets 1.8, a request whose [lw] is not a number gets 1.0; for
    [order] both fall-backs are 4. *)
Theorem get_params_fallbacks int_of_str float_of_str args :
  let p := _get_params int_of_str float_of_str args in
  (lookup_first args "lw" = None -> lw p = FFin (18 / 10))
  /\ (forall s, lookup_first args "lw" = Some s -> float_of_str s = None ->
                lw p = FFin 1)
  /\ (lookup_first args "order" = None -> order p = 4%Z)
  /\ (forall s, lookup_first args "order" = Some s -> int_of_str s = None ->
                order p = 4%Z).
Proof.
  intros p. subst p. cbn [_get_params lw order].
  rewrite !get_lookup_first.
  split; [|split; [|split]].
  - intros ->. unfold _float_pos. cbn [float].
    rewrite max_min_float_clamp. f_equal.
    unfold clamp_float, Rmax, Rmin.
    destruct (Rle_dec 10 (18 / 10));
      repeat match goal with
             | |- context [Rle_dec ?u ?w] => destruct (Rle_dec u w)
             end; lra.
  - intros s -> Hs. unfold _float_pos. cbn [float]. rewrite Hs. reflexivity.
  - intros ->. reflexivity.
  - intros s -> Hs. unfold _clamp_int. cbn [int]. rewrite Hs. reflexivity.
Qed.

Lemma get_params_fallbacks_witness :
  lw (_get_params (fun _ => None) (fun _ => None) [("fig", "two")])
  = FFin (18 / 10)
  /\ lw (_get_params (fun _ => None) (fun _ => None) [("lw", "wide")])
     = FFin 1
  /\ order (_get_params (fun _ => None) (fun _ => None) [("fig", "two")])
     = 4%Z
  /\ order (_get_params (fun _ => None) (fun _ => None) [("order", "x")])
     = 4%Z.
Proof.
  split; [|split; [|split]].
  - apply (proj1 (get_params_fallbacks (fun _ => None) (fun _ => None)
                    [("fig", "two")])). reflexivity.
  - apply (proj1 (proj2 (get_params_fallbacks (fun _ => None) (fun _ => None)
                           [("lw", "wide")])) "wide"); reflexivity.
  - apply (proj1 (proj2 (proj2 (get_params_fallbacks (fun _ => None)
                                  (fun _ => None) [("fig", "two")])))).
    reflexivity.
  - apply (proj2 (proj2 (proj2 (get_params_fallbacks (fun _ => None)
                                  (fun _ => None) [("order", "x")]))) "x");
      reflexivity.
Defined.

(** X16. [_get_params] reads nothing but the first value of each of its
    five keys: two requests that agree on those give the same parameters,
    whatever else they hold and whatever is repeated in them. *)
Theorem get_params_first_values int_of_str float_of_str args args' :
  (forall key, In key ["fig"; "order"; "lw"; "c1"; "c2"] ->
               lookup_first args key = lookup_first args' key) ->
  _get_params int_of_str float_of_str args
  = _get_params int_of_str float_of_str args'.
Proof.
  intros H. unfold _get_params. rewrite !get_lookup_first.
  rewrite (H "fig"), (H "order"), (H "lw"), (H "c1"), (H "c2");
    cbn [In]; auto 10.
Qed.

Lemma get_params_first_values_witness :
  _get_params (fun _ => Some 3%Z) (fun _ => None)
    [("order", "3"); ("zoom", "2"); ("order", "9")]
  = _get_params (fun _ => Some 3%Z) (fun _ => None) [("order", "3")].
Proof.
  apply (get_params_first_values (fun _ => Some 3%Z) (fun _ => None)
           [("order", "3"); ("zoom", "2"); ("order", "9")] [("order", "3")]).
  intros key Hkey.
  destruct Hkey as [<-|[<-|[<-|[<-|[<-|[]]]]]]; reflexivity.
Defined.

End HelperExtras.

(** ** Further properties of the image route *)

Section PlotExtras.
Import Py Koch Geometry Params Plot Figure.
Local Open Scope R_scope.
Local Open Scope string_scope.

Lemma get_params_order_range int_of_str float_of_str args :
  (0 <= order (_get_params int_of_str float_of_str args) <= 7)%Z.
Proof. cbn [_get_params order]. apply clamp_int_range. Qed.

Lemma sqrt3_bounds : 17 / 10 < sqrt 3 < 18 / 10.
Proof.
  pose proof sqrt3_sqr as Hr. pose proof sqrt3_pos as Hp.
  split.
  - apply Rnot_le_lt. intros H.
    assert (sqrt 3 * sqrt 3 <= 17 / 10 * (17 / 10))
      by (apply Rmult_le_compat; lra).
    lra.
  - apply Rnot_le_lt. intros H.
    assert (18 / 10 * (18 / 10) <= sqrt 3 * sqrt 3)
      by (apply Rmult_le_compat; lra).
    lra.
Qed.

(** X17. [plot] calls the core with an order of at most 7, so that 8
    frames left for [koch_curve] at that call always suffice; the shape
    then has at most three polylines, each of [4^order + 1] points for the
    clamped order, hence of at most 16385 points. *)
Theorem plot_returns_bounded int_of_str float_of_str depth args :
  (8 <= depth)%nat ->
  exists sh,
    plot int_of_str float_of_str depth args = Returned sh
    /\ (List.length (polylines sh) <= 3)%nat
    /\ forall pl, In pl (polylines sh) ->
         Z.of_nat (List.length pl)
         = (4 ^ order (_get_params int_of_str float_of_str args) + 1)%Z
         /\ (Z.of_nat (List.length pl) <= 16385)%Z.
Proof.
  intros Hd.
  pose proof (get_params_order_range int_of_str float_of_str args) as Ho.
  unfold plot, koch_two_sides, koch_snowflake.
  set (o := order (_get_params int_of_str float_of_str args)) in *.
  assert (Hcount : forall len s a,
             Z.of_nat (List.length (koch_points (Z.to_nat o) len s a))
             = (4 ^ o + 1)%Z
             /\ (Z.of_nat (List.length (koch_points (Z.to_nat o) len s a))
                 <= 16385)%Z).
  { intros len s a.
    rewrite koch_points_count_Z, Z2Nat.id by lia.
    split; [reflexivity|].
    assert (4 ^ o <= 4 ^ 7)%Z by (apply Z.pow_le_mono_r; lia).
    change (4 ^ 7)%Z with 16384%Z in H. lia. }
  destruct (eq_str _ "curve"); [|destruct (eq_str _ "two")];
    rewrite !koch_curve_returns by lia; cbn [bind fst snd];
    eexists; (split; [reflexivity|]); cbn [polylines List.length];
    (split; [lia|]); intros pl Hpl; cbn [In] in Hpl;
    repeat (destruct Hpl as [<-|Hpl]; [apply Hcount|]); destruct Hpl.
Qed.

Lemma plot_returns_bounded_witness :
  exists sh,
    plot (fun _ => Some 99%Z) (fun _ => None) 64 [("order", "99")] = Returned sh
    /\ (List.length (polylines sh) <= 3)%nat
    /\ forall pl, In pl (polylines sh) ->
         Z.of_nat (List.length pl)
         = (4 ^ order (_get_params (fun _ => Some 99%Z) (fun _ => None)
                         [("order", "99")]) + 1)%Z
         /\ (Z.of_nat (List.length pl) <= 16385)%Z.
Proof.
  apply (plot_returns_bounded (fun _ => Some 99%Z) (fun _ => None) 64
           [("order", "99")]). lia.
Defined.

End PlotExtras.

Section PlotView.
Import Py Koch Geometry Params Plot Figure.
Local Open Scope R_scope.
Local Open Scope string_scope.

Lemma curve_points_within n p :
  In p (koch_points n 1 (-0.5, 0) 0) ->
  within ((-0.55, 0.55), (-0.15, 0.35)) p.
Proof.
  intros Hin. apply koch_points_in_triangle in Hin; [|lra].
  destruct Hin as (x & y & -> & Hy & Hx1 & Hx2).
  rewrite radians_0, cos_0, sin_0.
  pose proof sqrt3_bounds as [Hlo _].
  assert (Hy2 : 17 / 10 * y <= sqrt 3 * y)
    by (apply Rmult_le_compat_r; lra).
  unfold within; cbn [fst snd]. lra.
Qed.

Lemma snow_points_within n p :
  In p (koch_points n 1 (- 1 / 2, 0) 0)
  \/ In p (koch_points n 1 (1 / 2, 0) 120)
  \/ In p (koch_points n 1 (0, sqrt 3 / 2 * 1) (-120)) ->
  within ((-0.7, 0.7), (-0.15, 0.95)) p.
Proof.
  intros Hin. apply koch_snowflake_sides_inside in Hin; [|lra].
  destruct Hin as (H0 & H1 & H2).
  pose proof sqrt3_bounds as [Hlo Hhi].
  assert (Hl : 0 <= fst p + 1 / 2).
  { apply Rnot_lt_le. intros Hneg.
    assert (sqrt 3 * (fst p + 1 / 2) < sqrt 3 * 0)
      by (apply Rmult_lt_compat_l; lra).
    lra. }
  assert (Hr : 0 <= 1 / 2 - fst p).
  { apply Rnot_lt_le. intros Hneg.
    assert (sqrt 3 * (1 / 2 - fst p) < sqrt 3 * 0)
      by (apply Rmult_lt_compat_l; lra).
    lra. }
  assert (Hsum : 2 * snd p <= sqrt 3)
    by (replace (sqrt 3) with (sqrt 3 * (fst p + 1 / 2)
                               + sqrt 3 * (1 / 2 - fst p)) by field; lra).
  unfold within; cbn [fst snd]. lra.
Qed.

Lemma eq_str_two_not_curve v : eq_str v "two" = true -> eq_str v "curve" = false.
Proof.
  destruct v as [s|n|x]; try discriminate. cbn [eq_str].
  intros H. apply String.eqb_eq in H. subst s. reflexivity.
Qed.

(** X18. For every request whose [fig] is not "two", all the points that
    [plot] draws lie inside the axes limits that the same branch sets: the
    curve and the snowflake are never cut by the frame. *)
Theorem plot_points_within_limits int_of_str float_of_str depth args :
  (8 <= depth)%nat ->
  eq_str (fig (_get_params int_of_str float_of_str args)) "two" = false ->
  exists sh,
    plot int_of_str float_of_str depth args = Returned sh
    /\ forall pl p, In pl (polylines sh) -> In p pl ->
         within (axes_limits (fig (_get_params int_of_str float_of_str args))) p.
Proof.
  intros Hd Htwo.
  pose proof (get_params_order_range int_of_str float_of_str args) as Ho.
  unfold plot, koch_snowflake, axes_limits. rewrite Htwo.
  set (o := order (_get_params int_of_str float_of_str args)) in *.
  destruct (eq_str _ "curve");
    rewrite !koch_curve_returns by lia; cbn [bind];
    eexists; (split; [reflexivity|]); cbn [polylines];
    intros pl p Hpl Hp.
  - destruct Hpl as [<-|[]]. eapply curve_points_within, Hp.
  - apply (snow_points_within (Z.to_nat o)).
    destruct Hpl as [<-|[<-|[<-|[]]]]; auto.
Qed.

Lemma plot_points_within_limits_witness :
  exists sh,
    plot (fun _ => Some 2%Z) (fun _ => None) 8 [("fig", "snow")] = Returned sh
    /\ forall pl p, In pl (polylines sh) -> In p pl ->
         within (axes_limits (fig (_get_params (fun _ => Some 2%Z)
                                     (fun _ => None) [("fig", "snow")]))) p.
Proof.
  apply (plot_points_within_limits (fun _ => Some 2%Z) (fun _ => None) 8
           [("fig", "snow")]); [lia | reflexivity].
Defined.

(** X19. For every request whose [fig] is "two", the second side ends
    above the upper y limit 0.7 that the branch sets, by more than 0.15
    (in exact real arithmetic it ends at height [sqrt 3 / 2]): the top of
    that side falls outside the frame, at every order. *)
Theorem plot_two_sides_above_limit int_of_str float_of_str depth args :
  (8 <= depth)%nat ->
  eq_str (fig (_get_params int_of_str float_of_str args)) "two" = true ->
  exists side1 side2 q,
    plot int_of_str float_of_str depth args = Returned (TwoSides side1 side2)
    /\ last side2 = Some q
    /\ snd (snd (axes_limits (fig (_get_params int_of_str float_of_str args))))
         + 15 / 100
       < snd q.
Proof.
  intros Hd Htwo.
  pose proof (get_params_order_range int_of_str float_of_str args) as Ho.
  pose proof (eq_str_two_not_curve _ Htwo) as Hcurve.
  unfold plot, koch_two_sides, axes_limits. rewrite Htwo, Hcurve.
  set (o := order (_get_params int_of_str float_of_str args)) in *.
  rewrite !koch_curve_returns by lia. cbn [bind fst snd].
  do 3 eexists. split; [reflexivity|].
  split; [apply koch_points_last|].
  pose proof sqrt3_bounds as [Hlo _].
  unfold advance; cbn [fst snd].
  rewrite radians_60, sin_PI3. lra.
Qed.

Lemma plot_two_sides_above_limit_witness :
  exists side1 side2 q,
    plot (fun _ => None) (fun _ => None) 64 [("fig", "two")]
    = Returned (TwoSides side1 side2)
    /\ last side2 = Some q
    /\ snd (snd (axes_limits (fig (_get_params (fun _ => None) (fun _ => None)
                                     [("fig", "two")]))))
         + 15 / 100
       < snd q.
Proof.
  apply (plot_two_sides_above_limit (fun _ => None) (fun _ => None) 64
           [("fig", "two")]); [lia | reflexivity].
Defined.

(** X20. The file name under which [plot] sends the image is
    [koch_<fig>_o<d>.<ext>]: [fig] is the request's text as it came, [d] is
    one decimal digit (the clamped order), and [ext] is svg with mime type
    image/svg+xml or png with image/png.  The image is sent as an
    attachment exactly when the request has a non-empty [download] value,
    whatever that value says. *)
Theorem plot_response_shape int_of_str float_of_str lower format_float args :
  let p := _get_params int_of_str float_of_str args in
  let r := plot_response int_of_str float_of_str lower format_float args in
  exists figs d ext,
    fig p = VStr figs
    /\ (d <= 7)%nat /\ order p = Z.of_nat d
    /\ download_name r
       = "koch_" ++ figs ++ "_o" ++ String (ascii_of_nat (48 + d)) ""
           ++ "." ++ ext
    /\ ((mimetype r = "image/svg+xml" /\ ext = "svg")
        \/ (mimetype r = "image/png" /\ ext = "png"))
    /\ (as_attachment r = true
        <-> exists s, lookup_first args "download" = Some s /\ s <> "").
Proof.
  intros p r.
  pose proof (get_params_order_range int_of_str float_of_str args) as Ho.
  assert (Hfig : exists figs, fig p = VStr figs).
  { subst p. cbn [_get_params fig]. rewrite get_lookup_first.
    destruct (lookup_first args "fig"); eexists; reflexivity. }
  destruct Hfig as [figs Hfig].
  subst r. unfold plot_response. fold p. rewrite Hfig.
  cbn [format_val download_name mimetype as_attachment].
  fold p in Ho. set (o := order p) in *.
  exists figs, (Z.to_nat o).
  assert (Hdigit : format_int o = String (ascii_of_nat (48 + Z.to_nat o)) "").
  { assert (Hc : (o = 0 \/ o = 1 \/ o = 2 \/ o = 3 \/ o = 4 \/ o = 5
                  \/ o = 6 \/ o = 7)%Z) by lia.
    clearbody o.
    destruct Hc as [->|[->|[->|[->|[->|[->|[->| ->]]]]]]]; reflexivity. }
  rewrite Hdigit.
  assert (Hatt : truthy (lookup_first args "download") = true
                 <-> exists s, lookup_first args "download" = Some s /\ s <> "").
  { destruct (lookup_first args "download") as [s|]; cbn [truthy].
    - rewrite negb_true_iff, String.eqb_neq. split.
      + intros Hs. exists s. split; [reflexivity | exact Hs].
      + intros (s' & Hs' & Hne). injection Hs' as ->. exact Hne.
    - split; [discriminate|]. intros (s & Hs & _). discriminate. }
  destruct (String.eqb _ "svg"); eexists; cbn [fst snd];
    (split; [reflexivity|]); (split; [lia|]); (split; [lia|]);
    (split; [reflexivity|]); (split; [|exact Hatt]).
  - left. split; reflexivity.
  - right. split; reflexivity.
Qed.

End PlotView.

(** ** The core outside its precondition on the length *)

Section DegenerateLengths.
Import Py Koch Geometry.
Local Open Scope R_scope.

Lemma advance_zero s a : advance s 0 a = s.
Proof. destruct s as [x y]. unfold advance; cbn [fst snd]. f_equal; ring. Qed.

Lemma koch_points_zero_length n :
  forall s a p, In p (koch_points n 0 s a) -> p = s.
Proof.
  induction n as [|n IH]; intros s a p Hin.
  - cbn [koch_points] in Hin. rewrite advance_zero in Hin.
    destruct Hin as [<-|[<-|[]]]; reflexivity.
  - cbn [koch_points] in Hin.
    replace (0 / 3) with 0 in Hin by field.
    rewrite !advance_zero in Hin.
    repeat (apply in_app_or in Hin as [Hin|Hin]);
      try apply in_slice_drop_last in Hin; apply IH in Hin; exact Hin.
Qed.

Lemma advance_opposite s len a : advance s (- len) a = advance s len (a + 180).
Proof.
  unfold advance.
  replace (radians (a + 180)) with (radians a + PI)
    by (unfold radians; field).
  rewrite neg_cos, neg_sin. f_equal; ring.
Qed.

Lemma koch_points_opposite n :
  forall len s a, koch_points n (- len) s a = koch_points n len s (a + 180).
Proof.
  induction n as [|n IH]; intros len s a.
  - cbn [koch_points]. rewrite advance_opposite. reflexivity.
  - cbn [koch_points].
    replace (- len / 3) with (- (len / 3)) by field.
    replace (a + 180 + 60) with (a + 60 + 180) by ring.
    replace (a + 180 - 60) with (a - 60 + 180) by ring.
    rewrite !advance_opposite, !IH. reflexivity.
Qed.

(** X21. A zero length is not rejected: the call returns its
    [4^order + 1] points, all equal to the start point. *)
Theorem koch_curve_zero_length depth order s a :
  (0 <= order)%Z -> (Z.to_nat order < depth)%nat ->
  exists pts,
    koch_curve depth order 0 s a = Returned pts
    /\ Z.of_nat (List.length pts) = (4 ^ order + 1)%Z
    /\ forall p, In p pts -> p = s.
Proof.
  intros Ho Hd. eexists. split; [|split].
  - apply koch_curve_returns; assumption.
  - rewrite koch_points_count_Z, Z2Nat.id by assumption. reflexivity.
  - apply koch_points_zero_length.
Qed.

Lemma koch_curve_zero_length_witness :
  exists pts,
    koch_curve 3 2 0 (1, 1) 30 = Returned pts
    /\ Z.of_nat (List.length pts) = (4 ^ 2 + 1)%Z
    /\ forall p, In p pts -> p = (1, 1).
Proof.
  apply (koch_curve_zero_length 3 2 (1, 1) 30); [lia | simpl; lia].
Defined.

(** X22. A negative length is not rejected either: in exact real
    arithmetic the outcome is that of the opposite length drawn in the
    opposite direction, that is with 180 degrees added to the angle. *)
Theorem koch_curve_negative_length depth order len s a :
  koch_curve depth order (- len) s a = koch_curve depth order len s (a + 180).
Proof.
  destruct (Z_lt_le_dec order 0) as [Hneg|Hpos].
  - rewrite !koch_curve_negative by assumption. reflexivity.
  - destruct (le_lt_dec depth (Z.to_nat order)) as [Hd|Hd].
    + rewrite !koch_curve_stack_exhausted by lia. reflexivity.
    + rewrite !koch_curve_returns by assumption.
      rewrite koch_points_opposite. reflexivity.
Qed.

End DegenerateLengths.

(** ** The core on binary64 floats *)

Section FloatCore.
Import Py.
Local Open Scope float_scope.

(** [math.cos] and [math.sin] as functions that return on every argument
    met. *)
Variable c : float -> float.
Variable s : float -> float.

Let lib_cos (x : float) : outcome float := Returned (c x).
Let lib_sin (x : float) : outcome float := Returned (s x).

Lemma koch_curve_float_natural n :
  forall depth len st a, (n < depth)%nat ->
    exists pts,
      Binary64.koch_curve lib_cos lib_sin depth (Z.of_nat n) len st a
      = Returned pts
      /\ List.length pts = (4 ^ n + 1)%nat
      /\ first pts = Some st.
Proof.
  induction n as [|n IH]; intros depth len st a Hd;
    (destruct depth as [|depth]; [lia|]).
  - eexists. repeat split.
  - cbn [Binary64.koch_curve].
    replace (Z.of_nat (S n) =? 0)%Z with false
      by (symmetry; apply Z.eqb_neq; lia).
    replace (Z.of_nat (S n) - 1)%Z with (Z.of_nat n) by lia.
    unfold lib_cos at 1 2 3 4, lib_sin at 1 2 3 4. cbn [bind]. cbv zeta.
    do 4 match goal with
         | |- context [Binary64.koch_curve _ _ depth (Z.of_nat n) ?l ?p ?g] =>
             let E := fresh "E" in
             destruct (IH depth l p g ltac:(lia)) as (? & E & ? & ?);
             rewrite E; cbn [bind]
         end.
    eexists. split; [reflexivity|]. split.
    + rewrite !length_app, !length_slice_drop_last.
      repeat match goal with H : List.length _ = _ |- _ => rewrite H; clear H end.
      rewrite Nat.pow_succ_r'. lia.
    + apply first_app, first_slice_drop_last; [|assumption].
      match goal with H : List.length ?l = _ |- (2 <= List.length ?l)%nat =>
        rewrite H end.
      pose proof (Nat.pow_nonzero 4 n). lia.
Qed.

End FloatCore.

Section FloatClaims.
Import Py.
Local Open Scope float_scope.

(** X23. On the floats too, and whatever values [math.cos] and [math.sin]
    return, the polyline has exactly [4^order + 1] points and its first
    point is [start], bit for bit: neither depends on rounding. *)
Theorem koch_curve_float_point_count (c s : float -> float)
        depth order len st a :
  (0 <= order)%Z -> (Z.to_nat order < depth)%nat ->
  exists pts,
    Binary64.koch_curve (fun x => Returned (c x)) (fun x => Returned (s x))
      depth order len st a = Returned pts
    /\ Z.of_nat (List.length pts) = (4 ^ order + 1)%Z
    /\ first pts = Some st.
Proof.
  intros Ho Hd.
  destruct (koch_curve_float_natural c s (Z.to_nat order) depth len st a Hd)
    as (pts & E & Hl & Hf).
  rewrite Z2Nat.id in E by assumption.
  exists pts. split; [exact E|]. split; [|exact Hf].
  rewrite Hl, Nat2Z.inj_add, Nat2Z.inj_pow, Z2Nat.id by assumption.
  reflexivity.
Qed.

Lemma koch_curve_float_point_count_witness :
  exists pts,
    Binary64.koch_curve (fun x => Returned (abs x)) (fun x => Returned (- x))
      3 2 1 (0, 0) 45 = Returned pts
    /\ Z.of_nat (List.length pts) = (4 ^ 2 + 1)%Z
    /\ first pts = Some (0, 0).
Proof.
  apply (koch_curve_float_point_count abs opp 3 2 1 (0, 0) 45);
    [lia | simpl; lia].
Defined.

(** X24. When [math.cos] raises at the radians of [angle_deg] (as it does
    on an infinite angle), [koch_curve] ends with that exception at once,
    whatever the order, negative ones included: the exception is not
    caught, and no point is returned. *)
Theorem koch_curve_float_domain_error
        (cos sin : float -> outcome float) depth order len st a e :
  (1 <= depth)%nat ->
  cos (Binary64.radians a) = Raised e ->
  Binary64.koch_curve cos sin depth order len st a = Raised e.
Proof.
  intros Hd Hcos. destruct depth as [|depth]; [lia|].
  cbn [Binary64.koch_curve].
  destruct (order =? 0)%Z; cbv zeta; rewrite Hcos; reflexivity.
Qed.

Lemma koch_curve_float_domain_error_witness :
  Binary64.koch_curve
    (fun x => if is_infinity x then Raised ValueError else Returned 1)
    (fun x => Returned 0) 1 (-2) 1 (0, 0) infinity
  = Raised ValueError.
Proof.
  apply (koch_curve_float_domain_error
           (fun x => if is_infinity x then Raised ValueError else Returned 1)
           (fun x => Returned 0) 1 (-2) 1 (0, 0) infinity ValueError);
    [lia | vm_compute; reflexivity].
Defined.

(** C3 fails on the floats.  With the C library's cosine and sine, the
    first leg of [koch_curve(2, 1.0, (0, 0), 0.0)] ends at abscissa
    0.33333333333333337 and the second leg starts at 0.3333333333333333:
    the point that is dropped is not the first point of the leg that
    follows, which is the point kept at index 4. *)
Lemma koch_curve_seam_differs_on_floats :
  exists l1 l2 pts p q,
    Binary64.koch_curve Binary64.table_cos Binary64.table_sin
      3 (2 - 1) (1 / 3) (0, 0) 0 = Returned l1
    /\ Binary64.koch_curve Binary64.table_cos Binary64.table_sin
         3 (2 - 1) (1 / 3) (0 + 1 / 3 * 1, 0 + 1 / 3 * 0) (0 + 60)
       = Returned l2
    /\ Binary64.koch_curve Binary64.table_cos Binary64.table_sin
         3 2 1 (0, 0) 0 = Returned pts
    /\ last l1 = Some p /\ first l2 = Some q /\ nth_error pts 4 = Some q
    /\ p = (0x1.5555555555556p-2, 0)
    /\ q = (0x1.5555555555555p-2, 0)
    /\ p <> q.
Proof.
  do 5 eexists.
  repeat (split; [vm_compute; reflexivity|]).
  intros H.
  apply (f_equal (fun r => fst r =? 0x1.5555555555556p-2)) in H.
  vm_compute in H. discriminate H.
Qed.

(** C5 fails on the floats.  From the start point (1e16, 0), the end point
    of [koch_curve(0, 1.0, ...)] is rounded onto the start point, so that
    [start + k * (p - start)] is the start point for every [k], while the
    end point of [koch_curve(0, 2 * 1.0, ...)] is (1e16 + 2, 0). *)
Lemma koch_curve_scaling_differs_on_floats :
  exists ps qs p q,
    Binary64.koch_curve Binary64.table_cos Binary64.table_sin
      1 0 1 (1e16, 0) 0 = Returned ps
    /\ Binary64.koch_curve Binary64.table_cos Binary64.table_sin
         1 0 (2 * 1) (1e16, 0) 0 = Returned qs
    /\ nth_error ps 1 = Some p /\ nth_error qs 1 = Some q
    /\ p = (1e16, 0)
    /\ q = (10000000000000002, 0)
    /\ q <> Binary64.scale_about (1e16, 0) 2 p.
Proof.
  do 4 eexists.
  repeat (split; [vm_compute; reflexivity|]).
  intros H.
  apply (f_equal (fun r => fst r =? 10000000000000002)) in H.
  vm_compute in H. discriminate H.
Qed.

End FloatClaims.
